(** * ios/generate_swift_bindings.py: a model of the binding-generation script

    The script is sequential glue code: it resolves five paths from its own
    location, checks that two of them exist, creates the output directory,
    tries the in-process generator, falls back to [cargo run] when the Python
    module cannot be imported, and finally lists the output directory.

    The model is a shallow embedding in a state-and-exception monad.  The
    state holds the file system (a tree), the working directory, what has
    been printed and the calls made to the outside world.  The outside world
    (the [uniffi_bindgen] module and the [cargo] subprocess) is a record of
    oracles. *)

From Stdlib Require Import String Ascii ZArith List Sorted Permutation Lia.
From stdpp Require Import gmap strings list fin_maps sorting.
Import ListNotations.

Set Warnings "-register-all".
Open Scope string_scope.

(** ** Paths

    [pathlib] paths, absolute and POSIX: the list of components below the
    root.  [Path(__file__)] is absolute when a script is run by a current
    interpreter. *)

Abbreviation path := (list string).

(** [Path.parent]; the parent of the root is the root. *)
Definition parent (p : path) : path := removelast p.

(** [p / c] *)
Definition joinpath (p : path) (c : string) : path := p ++ [c].
Infix "//" := joinpath (at level 40, left associativity).

(** [Path.name]: the last component. *)
Definition name (p : path) : string := default "" (last p).

(** [str(p)] *)
Fixpoint str_parts (p : path) : string :=
  match p with
  | [] => ""
  | c :: p' => "/" ++ c ++ str_parts p'
  end.

Definition str (p : path) : string :=
  match p with
  | [] => "/"
  | _ => str_parts p
  end.

(** Paths compare as the lists of their components, each component as a
    string (by code point, which on UTF-8 text is the order of the bytes). *)
Fixpoint path_leb (p q : path) : bool :=
  match p, q with
  | [], _ => true
  | _ :: _, [] => false
  | a :: p', b :: q' =>
      match String.compare a b with
      | Lt => true
      | Gt => false
      | Eq => path_leb p' q'
      end
  end.

Definition path_le (p q : path) : Prop := path_leb p q = true.

#[global] Instance path_le_dec : RelDecision path_le :=
  fun p q => decide (path_leb p q = true).

(** ** The file system

    A tree: a node is a regular file or a directory of named nodes.  The
    content of a file plays no part in the script. *)

Inductive node :=
| File
| Dir (entries : gmap string node).

(** [os.stat]: the node at a path, if any. *)
Fixpoint lookup_path (t : node) (p : path) : option node :=
  match p with
  | [] => Some t
  | c :: p' =>
      match t with
      | File => None
      | Dir m =>
          match m !! c with
          | Some t' => lookup_path t' p'
          | None => None
          end
      end
  end.

(** [Path.exists] *)
Definition path_exists (t : node) (p : path) : bool :=
  match lookup_path t p with
  | Some _ => true
  | None => false
  end.

(** [Path.is_dir] *)
Definition is_dir (t : node) (p : path) : bool :=
  match lookup_path t p with
  | Some (Dir _) => true
  | _ => false
  end.

(** [Path.mkdir(parents=True, exist_ok=True)]: every missing directory on
    the way is created, a directory that is there is left alone, and a
    regular file on the way (or at the end) makes the call fail with an
    [OSError], in which case nothing has been created. *)
Fixpoint mkdir_parents (t : node) (p : path) {struct p} : option node :=
  match t with
  | File => None
  | Dir m =>
      match p with
      | [] => Some t
      | c :: p' =>
          match mkdir_parents (default (Dir ∅) (m !! c)) p' with
          | Some t' => Some (Dir (<[c := t']> m))
          | None => None
          end
      end
  end.

(** The directory entries of [d], as paths: [d.glob("*")] (pathlib's glob
    does not hide dot files, and yields nothing when [d] is not a
    directory). *)
Definition glob_star (t : node) (d : path) : list path :=
  match lookup_path t d with
  | Some (Dir m) => (fun e => d // e.1) <$> map_to_list m
  | _ => []
  end.

(** [sorted] on paths *)
Definition sorted (l : list path) : list path := merge_sort path_le l.

(** What an external generator does to the file system: it writes files
    into the output directory it was given. *)
Fixpoint update_dir (t : node) (p : path)
    (f : gmap string node → gmap string node) {struct p} : node :=
  match t with
  | File => File
  | Dir m =>
      match p with
      | [] => Dir (f m)
      | c :: p' => Dir (alter (fun t' => update_dir t' p' f) c m)
      end
  end.

Definition write_files (t : node) (d : path) (names : list string) : node :=
  update_dir t d (fun m => foldr (fun n m' => <[n := File]> m') m names).

(** A node is a directory or not. *)
Definition kind (n : node) : bool :=
  match n with
  | File => false
  | Dir _ => true
  end.

(** ** Exceptions

    What the script tells apart: [SystemExit] derives from [BaseException]
    only, so [except Exception] lets it through; [ImportError] (with
    [ModuleNotFoundError]) is what [except ImportError] catches; everything
    else that derives from [Exception] is ordinary. *)

Inductive exn :=
| SystemExit (code : Z)
| ImportError (msg : string)
| OSError (msg : string)
| OtherException (msg : string).

Definition is_ImportError (e : exn) : bool :=
  match e with
  | ImportError _ => true
  | _ => false
  end.

Definition is_Exception (e : exn) : bool :=
  match e with
  | SystemExit _ => false
  | _ => true
  end.

(** [str(e)] *)
Definition exn_str (e : exn) : string :=
  match e with
  | SystemExit c => ""
  | ImportError m | OSError m | OtherException m => m
  end.

(** ** The outside world *)

(** The keyword arguments of [generate_bindings]. *)
Record gb_args := {
  kw_udl_file : string;
  kw_config_file_override : option string;
  kw_out_dir : string;
  kw_language : string;
  kw_library_file : string;
  kw_crate_name : string
}.

(** [subprocess.CompletedProcess] with captured text output. *)
Record CompletedProcess := {
  returncode : Z;
  cp_stdout : string;
  stderr : string
}.

(** The oracles.  An import succeeds ([None]) or raises.  A generator is
    given its arguments, the working directory and the file system; it
    returns or raises, and names the files it wrote into the output
    directory before that. *)
Record world := {
  import_uniffi_bindgen : option exn;
  import_generate_bindings : option exn;
  generate_bindings : gb_args → path → node → option exn * list string;
  subprocess_run :
    list string → path → node → (exn + CompletedProcess) * list string
}.

(** The calls that reach the outside world, each with how it ended; a call
    of a generator also with the working directory and the file system it
    was started in. *)
Inductive event :=
| EvImport (module : string) (r : option exn)
| EvImportFrom (module attr : string) (r : option exn)
| EvGenerateBindings (args : gb_args) (wd : path) (seen : node)
    (r : option exn)
| EvChdir (d : path) (r : option exn)
| EvSubprocessRun (argv : list string) (wd : path) (seen : node)
    (r : exn + CompletedProcess).

(** ** The monad *)

Record state := {
  fs : node;
  cwd : path;
  stdout : list string;
  trace : list event
}.

Inductive result (A : Type) :=
| Return (a : A)
| Raise (e : exn).
Arguments Return {A} a.
Arguments Raise {A} e.

Definition M (A : Type) : Type := state → result A * state.

Definition ret {A} (a : A) : M A := fun s => (Return a, s).

Definition bind {A B} (m : M A) (k : A → M B) : M B :=
  fun s =>
    match m s with
    | (Return a, s') => k a s'
    | (Raise e, s') => (Raise e, s')
    end.

Definition raise {A} (e : exn) : M A := fun s => (Raise e, s).

(** [try: body / except <class> as e: handler e] *)
Definition try_except {A} (body : M A) (class : exn → bool)
    (handler : exn → M A) : M A :=
  fun s =>
    match body s with
    | (Return a, s') => (Return a, s')
    | (Raise e, s') => if class e then handler e s' else (Raise e, s')
    end.

Declare Scope py_scope.
Delimit Scope py_scope with py.
Notation "x <- m ;; k" := (bind m (fun x => k))
  (at level 100, m at next level, right associativity) : py_scope.
Notation "m ;; k" := (bind m (fun _ => k))
  (at level 100, right associativity) : py_scope.
Open Scope py_scope.

(** [if c: body] *)
Definition when (c : bool) (body : M unit) : M unit :=
  if c then body else ret tt.

(** [for x in l: body x] *)
Fixpoint for_each {A} (l : list A) (body : A → M unit) : M unit :=
  match l with
  | [] => ret tt
  | x :: l' => body x ;; for_each l' body
  end.

(** ** Primitives *)

Definition print (line : string) : M unit :=
  fun s =>
    (Return tt,
     {| fs := fs s; cwd := cwd s; stdout := stdout s ++ [line];
        trace := trace s |}).

Definition log (ev : event) : M unit :=
  fun s =>
    (Return tt,
     {| fs := fs s; cwd := cwd s; stdout := stdout s;
        trace := trace s ++ [ev] |}).

Definition sys_exit {A} (code : Z) : M A := raise (SystemExit code).

Definition exists_ (p : path) : M bool :=
  fun s => (Return (path_exists (fs s) p), s).

(** What [str(e)] is when [mkdir] fails: [FileExistsError] when the path
    itself is a regular file, [NotADirectoryError] when a regular file
    lies above it. *)
Definition mkdir_message (t : node) (p : path) : string :=
  match lookup_path t p with
  | Some _ => "[Errno 17] File exists: '" ++ str p ++ "'"
  | None => "[Errno 20] Not a directory: '" ++ str p ++ "'"
  end.

Definition mkdir (p : path) : M unit :=
  fun s =>
    match mkdir_parents (fs s) p with
    | Some t =>
        (Return tt,
         {| fs := t; cwd := cwd s; stdout := stdout s; trace := trace s |})
    | None => (Raise (OSError (mkdir_message (fs s) p)), s)
    end.

Definition glob (d : path) : M (list path) :=
  fun s => (Return (glob_star (fs s) d), s).

(** [os.chdir] *)
Definition chdir_result (t : node) (d : path) : option exn :=
  match lookup_path t d with
  | Some (Dir _) => None
  | Some File => Some (OSError ("[Errno 20] Not a directory: '" ++ str d ++ "'"))
  | None =>
      Some (OSError ("[Errno 2] No such file or directory: '" ++ str d ++ "'"))
  end.

Definition chdir (d : path) : M unit :=
  fun s =>
    let r := chdir_result (fs s) d in
    let ev := EvChdir d r in
    match r with
    | None =>
        (Return tt,
         {| fs := fs s; cwd := d; stdout := stdout s;
            trace := trace s ++ [ev] |})
    | Some e =>
        (Raise e,
         {| fs := fs s; cwd := cwd s; stdout := stdout s;
            trace := trace s ++ [ev] |})
    end.

(** An import statement: logged, then it returns or raises. *)
Definition import_stmt (ev : option exn → event) (r : option exn) : M unit :=
  log (ev r) ;;
  match r with
  | None => ret tt
  | Some e => raise e
  end.

(** A line feed, for the [\n] of the source's string literals. *)
Definition nl : string := String "010"%char "".

(** ** The script *)

Section Script.

(** [Path(__file__)] and the outside world. *)
Variable script_file : path.
Variable w : world.

(** Lines 13-17. *)
Definition project_root : path := parent (parent script_file).
Definition core_dir : path := project_root // "core".
Definition udl_file : path := core_dir // "src" // "mepassa.udl".
Definition lib_file : path :=
  project_root // "target" // "release" // "libmepassa_core.dylib".
Definition out_dir : path := parent script_file // "MePassa" // "Generated".

(** The call of [generate_bindings]: the generator is handed the state of
    the world, what it wrote lands in the output directory, then it
    returns or raises. *)
Definition call_generate_bindings (args : gb_args) : M unit :=
  fun s =>
    let '(r, written) := generate_bindings w args (cwd s) (fs s) in
    let s' := {| fs := write_files (fs s) out_dir written; cwd := cwd s;
                 stdout := stdout s;
                 trace :=
                   trace s ++ [EvGenerateBindings args (cwd s) (fs s) r] |} in
    match r with
    | None => (Return tt, s')
    | Some e => (Raise e, s')
    end.

(** [subprocess.run(argv, capture_output=True, text=True)]: it raises when
    the program cannot be started (or its output not decoded), and returns
    the completed process whatever its return code. *)
Definition run (argv : list string) : M CompletedProcess :=
  fun s =>
    let '(r, written) := subprocess_run w argv (cwd s) (fs s) in
    let s' := {| fs := write_files (fs s) out_dir written; cwd := cwd s;
                 stdout := stdout s;
                 trace :=
                   trace s ++ [EvSubprocessRun argv (cwd s) (fs s) r] |} in
    match r with
    | inr cp => (Return cp, s')
    | inl e => (Raise e, s')
    end.

(** Lines 19-22. *)
Definition banner : M unit :=
  print "🔨 Generating Swift bindings for MePassa Core..." ;;
  print ("📄 UDL file: " ++ str udl_file) ;;
  print ("📚 Library: " ++ str lib_file) ;;
  print ("📂 Output: " ++ str out_dir).

(** Lines 24-34. *)
Definition check_inputs : M unit :=
  lib_there <- exists_ lib_file ;;
  when (negb lib_there)
    (print ("❌ Error: Library not found at " ++ str lib_file) ;;
     print "   Please build the library first:" ;;
     print "   cd core && cargo build --release" ;;
     sys_exit 1) ;;
  udl_there <- exists_ udl_file ;;
  when (negb udl_there)
    (print ("❌ Error: UDL file not found at " ++ str udl_file) ;;
     sys_exit 1).

(** Lines 41-55, the body of the outer [try]. *)
Definition in_process : M unit :=
  import_stmt (EvImport "uniffi_bindgen") (import_uniffi_bindgen w) ;;
  print "✅ Found uniffi_bindgen Python module" ;;
  import_stmt (EvImportFrom "uniffi_bindgen" "generate_bindings")
    (import_generate_bindings w) ;;
  call_generate_bindings
    {| kw_udl_file := str udl_file;
       kw_config_file_override := None;
       kw_out_dir := str out_dir;
       kw_language := "swift";
       kw_library_file := str lib_file;
       kw_crate_name := "mepassa" |} ;;
  print "✅ Swift bindings generated successfully!".

(** Lines 63-84, the body of the inner [try].  ([import os] binds a
    module that [pathlib] has already loaded.) *)
Definition external_process : M unit :=
  chdir core_dir ;;
  result <- run ["cargo"; "run";
                 "--bin"; "uniffi-bindgen";
                 "--features"; "uniffi/cli";
                 "--";
                 "generate";
                 "--library"; str lib_file;
                 "--language"; "swift";
                 "--out-dir"; str out_dir] ;;
  if (returncode result =? 0)%Z
  then print "✅ Swift bindings generated successfully!"
  else (print "❌ Error generating bindings:" ;;
        print (stderr result) ;;
        sys_exit 1).

(** Lines 86-91, the handler of the inner [try]. *)
Definition manual_guidance (e : exn) : M unit :=
  print ("❌ Error: " ++ exn_str e) ;;
  print (nl ++ "Manual generation required:") ;;
  print "1. Install uniffi-bindgen Python: pip install uniffi-bindgen" ;;
  print "2. Or use the Rust example: cd core && cargo run --example generate_bindings" ;;
  sys_exit 1.

(** Lines 57-91, the handler of the outer [try]. *)
Definition fallback (_ : exn) : M unit :=
  print "⚠️  uniffi_bindgen Python module not found" ;;
  print "   Trying cargo-based approach..." ;;
  try_except external_process is_Exception manual_guidance.

(** Lines 93-102. *)
Definition report : M unit :=
  there <- exists_ out_dir ;;
  when there
    (print (nl ++ "📝 Generated files:") ;;
     files <- glob out_dir ;;
     for_each (sorted files) (fun file => print ("   - " ++ name file))) ;;
  print (nl ++ "🎯 Next steps:") ;;
  print "   1. Add generated files to Xcode project" ;;
  print "   2. Add libmepassa_core.a to 'Frameworks and Libraries'" ;;
  print "   3. Import mepassa in Swift: import mepassa".

(** Lines 11-102. *)
Definition main : M unit :=
  banner ;;
  check_inputs ;;
  mkdir out_dir ;;
  try_except in_process is_ImportError fallback ;;
  report.

End Script.

(** ** The process

    [if __name__ == "__main__": main()].  The interpreter starts with
    nothing printed; when [main] returns the status is 0, [SystemExit]
    gives its code (as the low byte), and any other exception that reaches
    the top is shown as a traceback and gives status 1. *)

Record process := {
  exit_status : Z;
  traceback : option exn;
  final : state
}.

Definition initial (t : node) (d : path) : state :=
  {| fs := t; cwd := d; stdout := []; trace := [] |}.

Definition run_script (script_file : path) (w : world) (t : node) (d : path)
    : process :=
  match main script_file w (initial t d) with
  | (Return _, s) => {| exit_status := 0; traceback := None; final := s |}
  | (Raise (SystemExit c), s) =>
      {| exit_status := c mod 256; traceback := None; final := s |}
  | (Raise e, s) => {| exit_status := 1; traceback := Some e; final := s |}
  end.

(** ** Sample runs *)

Module Samples.

Definition script : path := ["repo"; "ios"; "generate_swift_bindings.py"].

(** A checkout in which the core has been built. *)
Definition built : node :=
  Dir {[ "repo" := Dir {[
    "ios" := Dir {[ "generate_swift_bindings.py" := File ]};
    "core" := Dir {[ "src" := Dir {[ "mepassa.udl" := File ]} ]};
    "target" := Dir {[ "release" := Dir {[
       "libmepassa_core.dylib" := File ]} ]} ]} ]}.

(** The same checkout before [cargo build]. *)
Definition unbuilt : node :=
  Dir {[ "repo" := Dir {[
    "ios" := Dir {[ "generate_swift_bindings.py" := File ]};
    "core" := Dir {[ "src" := Dir {[ "mepassa.udl" := File ]} ]} ]} ]}.

(** A checkout with neither the library nor the interface definition. *)
Definition bare : node :=
  Dir {[ "repo" := Dir {[
    "ios" := Dir {[ "generate_swift_bindings.py" := File ]} ]} ]}.

Definition swift_files : list string :=
  ["mepassaFFI.modulemap"; "mepassa.swift"; "mepassaFFI.h"].

Definition cargo_ok : CompletedProcess :=
  {| returncode := 0; cp_stdout := ""; stderr := "" |}.

Definition cargo_failed : CompletedProcess :=
  {| returncode := 101; cp_stdout := "";
     stderr := "error: no bin target named `uniffi-bindgen`" |}.

(** The Python module is installed and works. *)
Definition python_works : world :=
  {| import_uniffi_bindgen := None;
     import_generate_bindings := None;
     generate_bindings := fun _ _ _ => (None, swift_files);
     subprocess_run := fun _ _ _ => (inr cargo_ok, []) |}.

(** The Python module is installed and its generator returns without
    having written anything. *)
Definition python_silent : world :=
  {| import_uniffi_bindgen := None;
     import_generate_bindings := None;
     generate_bindings := fun _ _ _ => (None, []);
     subprocess_run := fun _ _ _ => (inr cargo_ok, []) |}.

(** The Python module is installed and its generator raises. *)
Definition python_raises : world :=
  {| import_uniffi_bindgen := None;
     import_generate_bindings := None;
     generate_bindings :=
       fun _ _ _ => (Some (OtherException "unsupported UDL syntax"), []);
     subprocess_run := fun _ _ _ => (inr cargo_ok, []) |}.

Definition no_module : option exn :=
  Some (ImportError "No module named 'uniffi_bindgen'").

(** No Python module; cargo generates the bindings. *)
Definition cargo_works : world :=
  {| import_uniffi_bindgen := no_module;
     import_generate_bindings := None;
     generate_bindings := fun _ _ _ => (None, []);
     subprocess_run := fun _ _ _ => (inr cargo_ok, swift_files) |}.

(** No Python module; cargo runs and fails. *)
Definition cargo_fails : world :=
  {| import_uniffi_bindgen := no_module;
     import_generate_bindings := None;
     generate_bindings := fun _ _ _ => (None, []);
     subprocess_run := fun _ _ _ => (inr cargo_failed, []) |}.

(** No Python module and no cargo on the [PATH]. *)
Definition cargo_missing : world :=
  {| import_uniffi_bindgen := no_module;
     import_generate_bindings := None;
     generate_bindings := fun _ _ _ => (None, []);
     subprocess_run := fun _ _ _ =>
       (inl (OSError "[Errno 2] No such file or directory: 'cargo'"), []) |}.

(** The built checkout once the output directory has been made. *)
Definition prepared : node :=
  default built (mkdir_parents built (out_dir script)).

(** No Python module and a cargo that leaves the interpreter. *)
Definition cargo_exits : world :=
  {| import_uniffi_bindgen := no_module;
     import_generate_bindings := None;
     generate_bindings := fun _ _ _ => (None, []);
     subprocess_run := fun _ _ _ => (inl (SystemExit 3), []) |}.

(** The runs used as examples below. *)
Definition unbuilt_run : process := run_script script python_works unbuilt [].
Definition bare_run : process := run_script script python_works bare [].
Definition working_run : process := run_script script python_works built [].
Definition silent_run : process := run_script script python_silent built [].
Definition raising_run : process := run_script script python_raises built [].
Definition cargo_run : process := run_script script cargo_works built [].
Definition failing_run : process := run_script script cargo_fails built [].

Definition unsupported : exn := OtherException "unsupported UDL syntax".

End Samples.

(** ** What the script prints, by name

    The lines of the source, for use in the statements below. *)

Definition banner_lines (script_file : path) : list string :=
  ["🔨 Generating Swift bindings for MePassa Core...";
   "📄 UDL file: " ++ str (udl_file script_file);
   "📚 Library: " ++ str (lib_file script_file);
   "📂 Output: " ++ str (out_dir script_file)].

Definition lib_missing_line (script_file : path) : string :=
  "❌ Error: Library not found at " ++ str (lib_file script_file).

Definition build_advice : list string :=
  ["   Please build the library first:";
   "   cd core && cargo build --release"].

Definition udl_missing_line (script_file : path) : string :=
  "❌ Error: UDL file not found at " ++ str (udl_file script_file).

Definition found_line : string := "✅ Found uniffi_bindgen Python module".

Definition success_line : string := "✅ Swift bindings generated successfully!".

Definition fallback_lines : list string :=
  ["⚠️  uniffi_bindgen Python module not found";
   "   Trying cargo-based approach..."].

Definition generator_error_line : string := "❌ Error generating bindings:".

Definition manual_lines : list string :=
  [nl ++ "Manual generation required:";
   "1. Install uniffi-bindgen Python: pip install uniffi-bindgen";
   "2. Or use the Rust example: cd core && cargo run --example generate_bindings"].

(** The block of the inner handler: the message of the exception, then the
    instructions. *)
Definition guidance_lines (e : exn) : list string :=
  ("❌ Error: " ++ exn_str e) :: manual_lines.

Definition listing_header : string := nl ++ "📝 Generated files:".

Definition listing_entry (file_name : string) : string := "   - " ++ file_name.

Definition next_steps : list string :=
  [nl ++ "🎯 Next steps:";
   "   1. Add generated files to Xcode project";
   "   2. Add libmepassa_core.a to 'Frameworks and Libraries'";
   "   3. Import mepassa in Swift: import mepassa"].

(** The keyword arguments and the command line the script passes on. *)
Definition gb_kwargs (script_file : path) : gb_args :=
  {| kw_udl_file := str (udl_file script_file);
     kw_config_file_override := None;
     kw_out_dir := str (out_dir script_file);
     kw_language := "swift";
     kw_library_file := str (lib_file script_file);
     kw_crate_name := "mepassa" |}.

Definition cargo_argv (script_file : path) : list string :=
  ["cargo"; "run"; "--bin"; "uniffi-bindgen"; "--features"; "uniffi/cli";
   "--"; "generate"; "--library"; str (lib_file script_file);
   "--language"; "swift"; "--out-dir"; str (out_dir script_file)].

(** The names of the entries of a directory. *)
Definition entry_names (t : node) (d : path) : list string :=
  name <$> glob_star t d.

(** What an import statement raised, when the event is one. *)
Definition import_raised (ev : event) : option exn :=
  match ev with
  | EvImport _ r | EvImportFrom _ _ r => r
  | _ => None
  end.

(** What a step of the external-process strategy raised. *)
Definition fallback_raised (ev : event) : option exn :=
  match ev with
  | EvChdir _ r => r
  | EvSubprocessRun _ _ _ (inl e) => Some e
  | _ => None
  end.

(** The event is a generation that succeeded: the in-process generator
    returned, or the subprocess ended with return code 0. *)
Definition generation_succeeded (ev : event) : bool :=
  match ev with
  | EvGenerateBindings _ _ _ None => true
  | EvSubprocessRun _ _ _ (inr cp) => (returncode cp =? 0)%Z
  | _ => false
  end.

(** A call of one of the two generators, with the file system it saw. *)
Definition generation_attempt (ev : event) : option node :=
  match ev with
  | EvGenerateBindings _ _ seen _ | EvSubprocessRun _ _ seen _ => Some seen
  | _ => None
  end.

(** What the listing step prints for a file system: nothing when the output
    directory is absent, else the header and an entry for each file. *)
Definition listing_lines (script_file : path) (t : node) : list string :=
  if path_exists t (out_dir script_file)
  then (listing_header ::
        ((fun file => listing_entry (name file)) <$>
           sorted (glob_star t (out_dir script_file))))%list
  else [].

(** The last lines printed are the instructions for a manual generation. *)
Definition guidance_shown (p : process) : Prop :=
  ∃ before msg, stdout (final p) = (before ++ msg :: manual_lines)%list.

Close Scope string_scope.

(** ** The shapes of a run

    [main] ends in one of eleven ways.  They are listed here, each with the
    state it leaves, to be proved exhaustive below. *)

Open Scope string_scope.

Definition ev_import (r : option exn) : event := EvImport "uniffi_bindgen" r.

Definition ev_import_from (r : option exn) : event :=
  EvImportFrom "uniffi_bindgen" "generate_bindings" r.

Close Scope string_scope.

(** What the interpreter makes of the way [main] ends (see [run_script]). *)
Definition finish (r : result unit) (s : state) : process :=
  match r with
  | Return _ => {| exit_status := 0; traceback := None; final := s |}
  | Raise (SystemExit c) =>
      {| exit_status := c mod 256; traceback := None; final := s |}
  | Raise e => {| exit_status := 1; traceback := Some e; final := s |}
  end.

(** The outer handler is entered from three places: either import
    statement, or the call of [generate_bindings] itself.  Each leaves its
    own lines, events and file system behind. *)
Inductive fallback_entry (script : path) (w : world) (d : path) (t1 : node) :
    list string → list event → node → Prop :=
| EntryImport msg :
    import_uniffi_bindgen w = Some (ImportError msg) →
    fallback_entry script w d t1
      (banner_lines script)
      [ev_import (Some (ImportError msg))]
      t1
| EntryImportFrom msg :
    import_uniffi_bindgen w = None →
    import_generate_bindings w = Some (ImportError msg) →
    fallback_entry script w d t1
      (banner_lines script ++ [found_line])
      [ev_import None; ev_import_from (Some (ImportError msg))]
      t1
| EntryGenerator msg written :
    import_uniffi_bindgen w = None →
    import_generate_bindings w = None →
    generate_bindings w (gb_kwargs script) d t1 =
      (Some (ImportError msg), written) →
    fallback_entry script w d t1
      (banner_lines script ++ [found_line])
      [ev_import None; ev_import_from None;
       EvGenerateBindings (gb_kwargs script) d t1 (Some (ImportError msg))]
      (write_files t1 (out_dir script) written).

Inductive main_shape (script : path) (w : world) (t : node) (d : path) :
    result unit → state → Prop :=
| NoLibrary :
    path_exists t (lib_file script) = false →
    main_shape script w t d (Raise (SystemExit 1))
      {| fs := t; cwd := d;
         stdout := banner_lines script ++
                   lib_missing_line script :: build_advice;
         trace := [] |}
| NoInterface :
    path_exists t (lib_file script) = true →
    path_exists t (udl_file script) = false →
    main_shape script w t d (Raise (SystemExit 1))
      {| fs := t; cwd := d;
         stdout := banner_lines script ++ [udl_missing_line script];
         trace := [] |}
| MkdirRaises msg :
    path_exists t (lib_file script) = true →
    path_exists t (udl_file script) = true →
    mkdir_parents t (out_dir script) = None →
    main_shape script w t d (Raise (OSError msg))
      {| fs := t; cwd := d; stdout := banner_lines script; trace := [] |}
| ImportRaises t1 e :
    path_exists t (lib_file script) = true →
    path_exists t (udl_file script) = true →
    mkdir_parents t (out_dir script) = Some t1 →
    import_uniffi_bindgen w = Some e →
    is_ImportError e = false →
    main_shape script w t d (Raise e)
      {| fs := t1; cwd := d; stdout := banner_lines script;
         trace := [ev_import (Some e)] |}
| ImportFromRaises t1 e :
    path_exists t (lib_file script) = true →
    path_exists t (udl_file script) = true →
    mkdir_parents t (out_dir script) = Some t1 →
    import_uniffi_bindgen w = None →
    import_generate_bindings w = Some e →
    is_ImportError e = false →
    main_shape script w t d (Raise e)
      {| fs := t1; cwd := d;
         stdout := banner_lines script ++ [found_line];
         trace := [ev_import None; ev_import_from (Some e)] |}
| GeneratorRaises t1 e written :
    path_exists t (lib_file script) = true →
    path_exists t (udl_file script) = true →
    mkdir_parents t (out_dir script) = Some t1 →
    import_uniffi_bindgen w = None →
    import_generate_bindings w = None →
    generate_bindings w (gb_kwargs script) d t1 = (Some e, written) →
    is_ImportError e = false →
    main_shape script w t d (Raise e)
      {| fs := write_files t1 (out_dir script) written; cwd := d;
         stdout := banner_lines script ++ [found_line];
         trace := [ev_import None; ev_import_from None;
                   EvGenerateBindings (gb_kwargs script) d t1 (Some e)] |}
| Generated t1 written :
    path_exists t (lib_file script) = true →
    path_exists t (udl_file script) = true →
    mkdir_parents t (out_dir script) = Some t1 →
    import_uniffi_bindgen w = None →
    import_generate_bindings w = None →
    generate_bindings w (gb_kwargs script) d t1 = (None, written) →
    main_shape script w t d (Return tt)
      {| fs := write_files t1 (out_dir script) written; cwd := d;
         stdout := banner_lines script ++ [found_line; success_line] ++
                   listing_lines script
                     (write_files t1 (out_dir script) written) ++
                   next_steps;
         trace := [ev_import None; ev_import_from None;
                   EvGenerateBindings (gb_kwargs script) d t1 None] |}
| CargoRaises t1 lines events t2 e written :
    path_exists t (lib_file script) = true →
    path_exists t (udl_file script) = true →
    mkdir_parents t (out_dir script) = Some t1 →
    fallback_entry script w d t1 lines events t2 →
    subprocess_run w (cargo_argv script) (core_dir script) t2 =
      (inl e, written) →
    is_Exception e = true →
    main_shape script w t d (Raise (SystemExit 1))
      {| fs := write_files t2 (out_dir script) written;
         cwd := core_dir script;
         stdout := lines ++ fallback_lines ++ guidance_lines e;
         trace := events ++
                  [EvChdir (core_dir script) None;
                   EvSubprocessRun (cargo_argv script) (core_dir script) t2
                     (inl e)] |}
| CargoExits t1 lines events t2 c written :
    path_exists t (lib_file script) = true →
    path_exists t (udl_file script) = true →
    mkdir_parents t (out_dir script) = Some t1 →
    fallback_entry script w d t1 lines events t2 →
    subprocess_run w (cargo_argv script) (core_dir script) t2 =
      (inl (SystemExit c), written) →
    main_shape script w t d (Raise (SystemExit c))
      {| fs := write_files t2 (out_dir script) written;
         cwd := core_dir script;
         stdout := lines ++ fallback_lines;
         trace := events ++
                  [EvChdir (core_dir script) None;
                   EvSubprocessRun (cargo_argv script) (core_dir script) t2
                     (inl (SystemExit c))] |}
| CargoFails t1 lines events t2 cp written :
    path_exists t (lib_file script) = true →
    path_exists t (udl_file script) = true →
    mkdir_parents t (out_dir script) = Some t1 →
    fallback_entry script w d t1 lines events t2 →
    subprocess_run w (cargo_argv script) (core_dir script) t2 =
      (inr cp, written) →
    returncode cp ≠ 0%Z →
    main_shape script w t d (Raise (SystemExit 1))
      {| fs := write_files t2 (out_dir script) written;
         cwd := core_dir script;
         stdout := lines ++ fallback_lines ++
                   [generator_error_line; stderr cp];
         trace := events ++
                  [EvChdir (core_dir script) None;
                   EvSubprocessRun (cargo_argv script) (core_dir script) t2
                     (inr cp)] |}
| CargoGenerated t1 lines events t2 cp written :
    path_exists t (lib_file script) = true →
    path_exists t (udl_file script) = true →
    mkdir_parents t (out_dir script) = Some t1 →
    fallback_entry script w d t1 lines events t2 →
    subprocess_run w (cargo_argv script) (core_dir script) t2 =
      (inr cp, written) →
    returncode cp = 0%Z →
    main_shape script w t d (Return tt)
      {| fs := write_files t2 (out_dir script) written;
         cwd := core_dir script;
         stdout := lines ++ fallback_lines ++ [success_line] ++
                   listing_lines script
                     (write_files t2 (out_dir script) written) ++
                   next_steps;
         trace := events ++
                  [EvChdir (core_dir script) None;
                   EvSubprocessRun (cargo_argv script) (core_dir script) t2
                     (inr cp)] |}.

(** What an outside call raised, whichever call it was. *)
Definition event_raised (ev : event) : option exn :=
  match ev with
  | EvImport _ r | EvImportFrom _ _ r | EvGenerateBindings _ _ _ r
  | EvChdir _ r => r
  | EvSubprocessRun _ _ _ (inl e) => Some e
  | EvSubprocessRun _ _ _ (inr _) => None
  end.

(** What a step of the in-process strategy raised: an import statement or
    the call of the generator. *)
Definition in_process_raised (ev : event) : option exn :=
  match ev with
  | EvImport _ r | EvImportFrom _ _ r | EvGenerateBindings _ _ _ r => r
  | _ => None
  end.

(** The event belongs to the external-process strategy. *)
Definition is_fallback_event (ev : event) : bool :=
  match ev with
  | EvChdir _ _ | EvSubprocessRun _ _ _ _ => true
  | _ => false
  end.

Definition is_generate_bindings (ev : event) : bool :=
  match ev with
  | EvGenerateBindings _ _ _ _ => true
  | _ => false
  end.

Definition is_subprocess_run (ev : event) : bool :=
  match ev with
  | EvSubprocessRun _ _ _ _ => true
  | _ => false
  end.

(** The path [q] is in [t'] what it was in [t]: still there, and still a
    file or still a directory. *)
Definition kept (t t' : node) (q : path) : Prop :=
  ∀ n, lookup_path t q = Some n →
       ∃ n', lookup_path t' q = Some n' ∧ kind n' = kind n.

(** ** More sample runs: the corners *)

Module Corners.

Import Samples.
Open Scope string_scope.

(** The Python module is there, but its generator needs a module that is
    not: it raises [ImportError] after having written one file. *)
Definition half_installed : world :=
  {| import_uniffi_bindgen := None;
     import_generate_bindings := None;
     generate_bindings :=
       fun _ _ _ => (Some (ImportError "No module named 'toml'"),
                     ["mepassa.swift"]);
     subprocess_run := fun _ _ _ => (inr cargo_ok, swift_files) |}.

(** The Python module is there and broken. *)
Definition broken_module : world :=
  {| import_uniffi_bindgen := Some (OtherException "invalid syntax");
     import_generate_bindings := None;
     generate_bindings := fun _ _ _ => (None, []);
     subprocess_run := fun _ _ _ => (inr cargo_ok, []) |}.

(** A built checkout in which [ios/MePassa] is a regular file. *)
Definition blocked : node :=
  Dir {[ "repo" := Dir {[
    "ios" := Dir {[ "generate_swift_bindings.py" := File;
                    "MePassa" := File ]};
    "core" := Dir {[ "src" := Dir {[ "mepassa.udl" := File ]} ]};
    "target" := Dir {[ "release" := Dir {[
       "libmepassa_core.dylib" := File ]} ]} ]} ]}.

(** A checkout with the library and without the interface definition. *)
Definition no_interface : node :=
  Dir {[ "repo" := Dir {[
    "ios" := Dir {[ "generate_swift_bindings.py" := File ]};
    "core" := Dir {[ "src" := Dir ∅ ]};
    "target" := Dir {[ "release" := Dir {[
       "libmepassa_core.dylib" := File ]} ]} ]} ]}.

(** A built checkout with bindings of an earlier run. *)
Definition regenerated : node :=
  Dir {[ "repo" := Dir {[
    "ios" := Dir {[ "generate_swift_bindings.py" := File;
                    "MePassa" := Dir {[ "Generated" := Dir {[
                       "old.swift" := File ]} ]} ]};
    "core" := Dir {[ "src" := Dir {[ "mepassa.udl" := File ]} ]};
    "target" := Dir {[ "release" := Dir {[
       "libmepassa_core.dylib" := File ]} ]} ]} ]}.

Definition half_installed_run : process :=
  run_script script half_installed built [].
Definition broken_run : process :=
  run_script script broken_module regenerated [].
Definition blocked_run : process := run_script script python_works blocked [].
Definition no_interface_run : process :=
  run_script script python_works no_interface [].
Definition regenerated_run : process :=
  run_script script python_works regenerated [].

Close Scope string_scope.

End Corners.

(** * Properties *)

(** ** The order on paths *)

Section PathOrder.

Lemma string_compare_refl (a : string) : String.compare a a = Eq.
Proof.
  pose proof (String.compare_antisym a a) as H.
  by destruct (String.compare a a).
Qed.

Lemma path_leb_total (p q : path) : path_leb p q = true ∨ path_leb q p = true.
Proof.
  revert q. induction p as [|a p IH]; intros [|b q]; simpl; auto.
  rewrite (String.compare_antisym a b).
  destruct (String.compare b a); simpl; auto.
Qed.

#[global] Instance path_le_total : Total path_le.
Proof. intros p q. apply path_leb_total. Qed.

(** Below one directory, paths are ordered as their names are. *)
Lemma path_leb_siblings (d : path) (a b : string) :
  path_leb (d // a) (d // b) = String.leb a b.
Proof.
  unfold joinpath. induction d as [|c d IH]; simpl.
  - unfold String.leb. by destruct (String.compare a b).
  - by rewrite string_compare_refl.
Qed.

Lemma name_joinpath (d : path) (a : string) : name (d // a) = a.
Proof. unfold name, joinpath. by rewrite last_snoc. Qed.

Lemma name_siblings (d : path) (l : list string) :
  name <$> ((fun a => d // a) <$> l) = l.
Proof.
  induction l as [|a l IH]; csimpl; [done|].
  by rewrite name_joinpath, IH.
Qed.

Lemma Sorted_siblings (d : path) (l : list string) :
  Sorted path_le ((fun a => d // a) <$> l) → Sorted String.le l.
Proof.
  induction l as [|a l IH]; csimpl; intros Hs; [constructor|].
  apply Sorted_inv in Hs as [Hs Hhd]. constructor; [auto|].
  destruct l as [|b l]; csimpl in *; constructor.
  apply HdRel_inv in Hhd. unfold path_le in Hhd.
  rewrite path_leb_siblings in Hhd. unfold String.le. by rewrite Hhd.
Qed.

(** A permutation of siblings is a list of siblings. *)
Lemma siblings_inv (d : path) (l : list string) (l' : list path) :
  l' ≡ₚ (fun a => d // a) <$> l →
  ∃ k, l' = (fun a => d // a) <$> k ∧ k ≡ₚ l.
Proof.
  intros Hp. apply Permutation_map_inv in Hp as (k & -> & Hk).
  by exists k.
Qed.

(** What [sorted] makes of the entries of a directory: the entries, with
    their names in order. *)
Lemma sorted_siblings (d : path) (l : list string) :
  ∃ k, sorted ((fun a => d // a) <$> l) = (fun a => d // a) <$> k ∧
       Sorted String.le k ∧ k ≡ₚ l.
Proof.
  destruct (siblings_inv d l (sorted ((fun a => d // a) <$> l)))
    as (k & Hk & Hp).
  { apply merge_sort_Permutation. }
  exists k. split; [done|]. split; [|done].
  apply (Sorted_siblings d). rewrite <- Hk.
  apply (Sorted_merge_sort path_le).
Qed.

End PathOrder.

(** ** The file system *)

Section FileSystem.

Lemma lookup_path_app (t : node) (p q : path) :
  lookup_path t (p ++ q) =
  match lookup_path t p with
  | Some n => lookup_path n q
  | None => None
  end.
Proof.
  revert t. induction p as [|c p IH]; intros t; simpl; [done|].
  destruct t as [|m]; [done|]. destruct (m !! c); [apply IH|done].
Qed.

(** Whatever lies on the way to an existing path is a directory. *)
Lemma is_dir_above (t : node) (p q : path) :
  q ≠ [] → path_exists t (p ++ q) = true → is_dir t p = true.
Proof.
  unfold path_exists, is_dir. rewrite lookup_path_app.
  destruct (lookup_path t p) as [[|m]|]; try done.
  by destruct q.
Qed.


(** [mkdir]: the path is a directory afterwards. *)
Lemma mkdir_parents_is_dir (p : path) (t t' : node) :
  mkdir_parents t p = Some t' → is_dir t' p = true.
Proof.
  revert t t'. induction p as [|c p IH]; intros [|m] t'; simpl; try done.
  - by intros [= <-].
  - destruct (mkdir_parents (default (Dir ∅) (m !! c)) p) as [t''|] eqn:E;
      [|done].
    intros [= <-]. unfold is_dir. simpl. rewrite lookup_insert_eq.
    apply (IH _ _ E).
Qed.

(** [mkdir] removes nothing and changes the kind of nothing. *)
Lemma mkdir_parents_keeps (p : path) (t t' : node) (q : path) (n : node) :
  mkdir_parents t p = Some t' →
  lookup_path t q = Some n →
  ∃ n', lookup_path t' q = Some n' ∧ kind n' = kind n.
Proof.
  revert t t' q n.
  induction p as [|c p IH]; intros [|m] t' q n; simpl; try done.
  - intros [= <-] Hq. by exists n.
  - destruct (mkdir_parents (default (Dir ∅) (m !! c)) p) as [t''|] eqn:E;
      [|done].
    intros [= <-]. destruct q as [|c' q]; simpl.
    + intros [= <-]. by eexists.
    + destruct (decide (c = c')) as [<-|Hne].
      * rewrite lookup_insert_eq.
        destruct (m !! c) as [x|] eqn:Hc; [|done].
        simpl in E. intros Hq. apply (IH _ _ _ _ E Hq).
      * rewrite lookup_insert_ne by done.
        destruct (m !! c') as [x|]; [|done]. intros Hq. by exists n.
Qed.

Lemma mkdir_parents_keeps_dir (p : path) (t t' : node) (q : path) :
  mkdir_parents t p = Some t' → is_dir t q = true → is_dir t' q = true.
Proof.
  unfold is_dir. intros Hm Hq.
  destruct (lookup_path t q) as [[|m]|] eqn:E; try done.
  destruct (mkdir_parents_keeps p t t' q _ Hm E) as (n' & -> & Hk).
  by destruct n'.
Qed.

Lemma mkdir_parents_keeps_path (p : path) (t t' : node) (q : path) :
  mkdir_parents t p = Some t' →
  path_exists t q = true → path_exists t' q = true.
Proof.
  unfold path_exists. intros Hm Hq.
  destruct (lookup_path t q) as [n|] eqn:E; [|done].
  by destruct (mkdir_parents_keeps p t t' q _ Hm E) as (n' & -> & Hk).
Qed.

(** [mkdir]: a directory that was there keeps its entries, a new one is
    empty. *)
Lemma mkdir_parents_lookup (p : path) (t t' : node) :
  mkdir_parents t p = Some t' →
  lookup_path t' p =
  Some (match lookup_path t p with
        | Some (Dir m) => Dir m
        | _ => Dir ∅
        end).
Proof.
  revert t t'. induction p as [|c p IH]; intros [|m] t'; simpl; try done.
  destruct (mkdir_parents (default (Dir ∅) (m !! c)) p) as [t''|] eqn:E;
    [|done].
  intros [= <-]. simpl. rewrite lookup_insert_eq, (IH _ _ E).
  destruct (m !! c) as [x|]; simpl; [done|].
  destruct p; simpl; [done|]. by rewrite lookup_empty.
Qed.

Lemma mkdir_parents_glob (p : path) (t t' : node) :
  mkdir_parents t p = Some t' → glob_star t' p = glob_star t p.
Proof.
  intros H. unfold glob_star. rewrite (mkdir_parents_lookup p t t' H).
  destruct (lookup_path t p) as [[|m]|]; try done;
    by rewrite map_to_list_empty.
Qed.

(** Writing into a directory leaves the directories on the way to it (and
    the directory) in place. *)
Lemma update_dir_keeps_dir (q r : path) (t : node)
    (f : gmap string node → gmap string node) :
  is_dir t q = true → is_dir (update_dir t (q ++ r) f) q = true.
Proof.
  revert t. unfold is_dir.
  induction q as [|c q IH]; intros [|m]; simpl; try done.
  - by destruct r.
  - rewrite lookup_alter_eq.
    destruct (m !! c) as [x|]; simpl; [apply IH|done].
Qed.

Lemma update_dir_lookup (p : path) (t : node) (m : gmap string node)
    (f : gmap string node → gmap string node) :
  lookup_path t p = Some (Dir m) →
  lookup_path (update_dir t p f) p = Some (Dir (f m)).
Proof.
  revert t. induction p as [|c p IH]; intros [|m']; simpl; try done.
  - by intros [= ->].
  - rewrite lookup_alter_eq.
    destruct (m' !! c) as [x|]; simpl; [apply IH|done].
Qed.

Lemma write_files_keeps_dir (q r : path) (t : node) (names : list string) :
  is_dir t q = true → is_dir (write_files t (q ++ r) names) q = true.
Proof. apply update_dir_keeps_dir. Qed.

Lemma written_empty (m : gmap string node) (names : list string) :
  foldr (fun n m' => <[n := File]> m') m names = ∅ ↔ names = [] ∧ m = ∅.
Proof.
  destruct names as [|n names]; simpl.
  - split; [done|by intros [_ ?]].
  - split; [|by intros [? _]]. intros H. by apply insert_non_empty in H.
Qed.

Lemma glob_star_nil (t : node) (d : path) (m : gmap string node) :
  lookup_path t d = Some (Dir m) → glob_star t d = [] ↔ m = ∅.
Proof.
  intros H. unfold glob_star. rewrite H.
  rewrite <- (map_to_list_empty_iff m). split; [apply fmap_nil_inv|].
  by intros ->.
Qed.

(** The output directory is empty after the generator ran exactly when it
    was empty before and the generator wrote nothing. *)
Lemma write_files_glob_nil (t : node) (d : path) (names : list string) :
  is_dir t d = true →
  glob_star (write_files t d names) d = [] ↔
  names = [] ∧ glob_star t d = [].
Proof.
  unfold is_dir. intros H.
  destruct (lookup_path t d) as [[|m]|] eqn:E; try done.
  unfold write_files.
  rewrite (glob_star_nil _ _ _ (update_dir_lookup d t m _ E)).
  rewrite (glob_star_nil _ _ _ E). apply written_empty.
Qed.

End FileSystem.

(** ** The blocks of the script *)

Section Blocks.

Local Arguments String.append : simpl never.

Lemma for_each_print {A} (f : A → string) (l : list A) (s : state) :
  for_each l (fun x => print (f x)) s =
  (Return tt,
   {| fs := fs s; cwd := cwd s; stdout := stdout s ++ (f <$> l);
      trace := trace s |}).
Proof.
  revert s. induction l as [|x l IH]; intros s; simpl.
  - destruct s; unfold ret; simpl. by rewrite app_nil_r.
  - unfold bind at 1. unfold print at 1. rewrite IH. simpl.
    by rewrite <- app_assoc.
Qed.

(** The listing step returns, whatever the state, and only prints. *)
Lemma report_run (script : path) (s : state) :
  report script s =
  (Return tt,
   {| fs := fs s; cwd := cwd s;
      stdout := stdout s ++ listing_lines script (fs s) ++ next_steps;
      trace := trace s |}).
Proof.
  unfold report, listing_lines, exists_, glob, when, bind, ret.
  destruct (path_exists (fs s) (out_dir script)); simpl.
  - rewrite (for_each_print (fun file => "   - " +:+ name file)).
    unfold print. simpl. do 2 f_equal. rewrite <- !app_assoc. done.
  - unfold print. simpl. do 2 f_equal. rewrite <- !app_assoc. done.
Qed.

(** With the output directory in place, the listing is the header and
    one entry for each file of the directory, the names in order. *)
Lemma listing_lines_spec (script : path) (t : node) :
  is_dir t (out_dir script) = true →
  ∃ names,
    listing_lines script t = listing_header :: (listing_entry <$> names) ∧
    Sorted String.le names ∧
    names ≡ₚ entry_names t (out_dir script).
Proof.
  unfold is_dir, listing_lines, entry_names, path_exists, glob_star.
  destruct (lookup_path t (out_dir script)) as [[|m]|]; try done.
  intros _.
  assert ((fun e : string * node => out_dir script // e.1) <$> map_to_list m
          = (fun a => out_dir script // a) <$> (map_to_list m).*1) as ->.
  { by rewrite <- list_fmap_compose. }
  destruct (sorted_siblings (out_dir script) (map_to_list m).*1)
    as (k & -> & Hs & Hp).
  exists k. rewrite name_siblings. split; [|done].
  f_equal. rewrite <- list_fmap_compose. apply list_fmap_ext.
  intros i a _. simpl. by rewrite name_joinpath.
Qed.

(** The interface definition lies below the core directory, and [mkdir]
    removes nothing: [os.chdir(core_dir)] succeeds. *)
Lemma chdir_core_dir (script : path) (t t' : node) :
  path_exists t (udl_file script) = true →
  mkdir_parents t (out_dir script) = Some t' →
  chdir_result t' (core_dir script) = None.
Proof.
  intros Hudl Hmk.
  assert (is_dir t' (core_dir script) = true) as Hd.
  { apply (mkdir_parents_keeps_dir _ _ _ _ Hmk).
    apply (is_dir_above t (core_dir script) ["src"; "mepassa.udl"]);
      [done|].
    unfold udl_file, joinpath in Hudl. by rewrite <- !app_assoc in Hudl. }
  unfold is_dir in Hd. unfold chdir_result.
  by destruct (lookup_path t' (core_dir script)) as [[|m]|].
Qed.

Lemma write_files_keeps_out (t : node) (d : path) (names : list string) :
  is_dir t d = true → is_dir (write_files t d names) d = true.
Proof.
  intros H. pose proof (write_files_keeps_dir d [] t names H) as H'.
  by rewrite app_nil_r in H'.
Qed.

Lemma entry_names_nil (t : node) (d : path) :
  entry_names t d = [] ↔ glob_star t d = [].
Proof.
  unfold entry_names. split; [apply fmap_nil_inv|by intros ->].
Qed.

Lemma is_dir_exists (t : node) (d : path) :
  is_dir t d = true → path_exists t d = true.
Proof.
  unfold is_dir, path_exists. by destruct (lookup_path t d).
Qed.


(** [mkdir] fails when a regular file lies on the way. *)
Lemma mkdir_parents_blocked (p : path) (t : node) (k : nat) :
  lookup_path t (take k p) = Some File → mkdir_parents t p = None.
Proof.
  revert t k. induction p as [|c p IH]; intros [|m] k; simpl; try done.
  - rewrite take_nil. simpl. by intros [=].
  - destruct k as [|k]; simpl; [by intros [=]|].
    destruct (m !! c) as [x|] eqn:Hc; [|done]. simpl.
    intros H. by rewrite (IH _ _ H).
Qed.


(** With the output directory in place, the listing is the header and one
    entry for each entry of the directory, each once, the names in
    order. *)
Lemma listing_lines_entries (script : path) (t : node) :
  is_dir t (out_dir script) = true →
  ∃ names m,
    lookup_path t (out_dir script) = Some (Dir m) ∧
    listing_lines script t = listing_header :: (listing_entry <$> names) ∧
    Sorted String.le names ∧
    NoDup names ∧
    ∀ n, In n names ↔ is_Some (m !! n).
Proof.
  unfold is_dir, listing_lines, path_exists, glob_star.
  destruct (lookup_path t (out_dir script)) as [[|m]|]; try done.
  intros _.
  assert ((fun e : string * node => out_dir script // e.1) <$> map_to_list m
          = (fun a => out_dir script // a) <$> (map_to_list m).*1) as ->.
  { by rewrite <- list_fmap_compose. }
  destruct (sorted_siblings (out_dir script) (map_to_list m).*1)
    as (k & -> & Hs & Hp).
  exists k, m. split_and!; [done| |done| |].
  - f_equal. rewrite <- list_fmap_compose. apply list_fmap_ext.
    intros i a _. simpl. by rewrite name_joinpath.
  - rewrite Hp. apply NoDup_fst_map_to_list.
  - intros n. rewrite <- list_elem_of_In, Hp, list_elem_of_fmap. split.
    + intros ([n' x] & -> & Hin). apply elem_of_map_to_list in Hin.
      by exists x.
    + intros [x Hx]. exists (n, x). split; [done|].
      by apply elem_of_map_to_list.
Qed.

End Blocks.

(** ** The runs of the script *)

Section Runs.

Import Samples.
Local Arguments String.append : simpl never.
Local Arguments str : simpl never.
Local Arguments report : simpl never.
Local Arguments Z.modulo : simpl never.

Ltac unfold_script :=
  unfold run_script, main, banner, check_inputs, in_process, fallback,
    external_process, manual_guidance, initial;
  unfold try_except, bind, when, ret, print, exists_, mkdir, chdir,
    import_stmt, log, raise, sys_exit, run, call_generate_bindings;
  simpl.

Ltac atomic x :=
  lazymatch x with
  | import_uniffi_bindgen _ => idtac
  | import_generate_bindings _ => idtac
  | generate_bindings _ _ _ _ => idtac
  | subprocess_run _ _ _ _ => idtac
  | chdir_result _ _ => idtac
  | Z.eqb _ _ => idtac
  | _ => is_var x
  end.

Ltac case_step :=
  first
  [ match goal with
    | |- context [report ?s ?st] => rewrite (report_run s st)
    end
  | match goal with
    | |- context [path_exists ?t ?p] => destruct (path_exists t p) eqn:?
    end
  | match goal with
    | |- context [mkdir_parents ?t ?p] => destruct (mkdir_parents t p) eqn:?
    end
  | match goal with
    | |- context [is_ImportError ?e] => is_var e; destruct e
    end
  | match goal with
    | |- context [is_Exception ?e] => is_var e; destruct e
    end
  | match goal with
    | |- context [match ?x with _ => _ end] => atomic x; destruct x eqn:?
    end ]; simpl.

Ltac run_cases := unfold_script; repeat case_step.

(** [l = ?before ++ suffix] for a list [l] that is long enough *)
Ltac split_off :=
  match goal with
  | |- ∃ b, ?l = b ++ ?suf =>
      exists (take (length l - length suf) l); reflexivity
  end.

(** Lines that differ in their literal part are different. *)
Ltac lines_differ :=
  let E := fresh in
  intros E; lazy beta iota zeta delta [String.append nl] in E; discriminate E.

Ltac not_among :=
  simpl; repeat (let E := fresh in intros [E|E]; [revert E; lines_differ|revert E]); tauto.

(** Finds an event in a trace, fixing what is left open in it. *)
Ltac find_event := simpl; repeat first [left; reflexivity | right].

Ltac nonzero_return :=
  match goal with
  | H : (returncode ?c =? 0)%Z = false |- _ => apply Z.eqb_neq in H
  end.

Ltac zero_return :=
  match goal with
  | H : (returncode ?c =? 0)%Z = true |- _ => apply Z.eqb_eq in H
  end.

(** Goes through the members of a concrete list: [tac] is run on each
    equation [x = member]. *)
Ltac in_cases H tac :=
  repeat lazymatch type of H with
         | _ ∨ _ => destruct H as [H|H]; [tac H|]
         end;
  try (exfalso; exact H).

Ltac out_dir_made :=
  match goal with
  | H : mkdir_parents _ _ = Some _ |- _ =>
      pose proof (mkdir_parents_is_dir _ _ _ H) as Hd
  end.


(** The lines printed do not end with the instructions. *)
Lemma guidance_suffix (l before : list string) (msg : string) :
  l = before ++ msg :: manual_lines →
  drop (length l - 4) l = msg :: manual_lines.
Proof.
  intros ->. rewrite length_app. simpl.
  replace (length before + 4 - 4) with (length before) by lia.
  by rewrite drop_app_length.
Qed.

Ltac no_guidance :=
  let E := fresh "E" in
  intros (? & ? & E); simpl in E;
  first
    [ rewrite !app_comm_cons in E;
      apply app_inj_2 in E as [_ E]; [|reflexivity]
    | apply guidance_suffix in E; simpl in E ];
  lazy beta iota zeta delta [String.append nl next_steps manual_lines] in E;
  discriminate E.

Tactic Notation "guidance_event" integer(k) :=
  solve [eexists _, _; split_and!;
         [simpl; do k right; left; reflexivity|done|done]].

(** C1. When the compiled library or the interface definition is missing,
    the script prints the error, exits with status 1 and has attempted no
    generation: no import, no call of the generator, no subprocess; the
    file system is as it was. *)
Theorem missing_input_stops_the_script script w t d :
  path_exists t (lib_file script) = false ∨
  path_exists t (udl_file script) = false →
  let p := run_script script w t d in
  exit_status p = 1%Z ∧ traceback p = None ∧
  trace (final p) = [] ∧ fs (final p) = t ∧
  (In (lib_missing_line script) (stdout (final p)) ∨
   In (udl_missing_line script) (stdout (final p))).
Proof.
  intros H p. subst p. unfold lib_missing_line, udl_missing_line.
  unfold_script.
  destruct (path_exists t (lib_file script)) eqn:Hlib; simpl.
  - destruct H as [H|H]; [done|]. rewrite H. simpl.
    split_and!; auto. right. tauto.
  - split_and!; auto. left. tauto.
Qed.

Lemma missing_input_stops_the_script_witness :
  path_exists unbuilt (lib_file script) = false ∧
  exit_status unbuilt_run = 1%Z ∧ trace (final unbuilt_run) = [].
Proof.
  assert (path_exists unbuilt (lib_file script) = false) as H
    by (vm_compute; reflexivity).
  split; [exact H|].
  destruct (missing_input_stops_the_script script python_works unbuilt []
              (or_introl H)) as (H1 & _ & H3 & _).
  split; [exact H1|exact H3].
Defined.

(** C2, as the code has it. When both inputs are there and the in-process
    generator returns, the script exits with status 0.  The script only
    makes the output directory: after the run the directory holds what it
    held before and what the generator wrote, so it is empty exactly when
    it was empty (or absent) before and the generator wrote nothing. *)
Theorem in_process_success script w t d args wd seen :
  let p := run_script script w t d in
  path_exists t (lib_file script) = true →
  path_exists t (udl_file script) = true →
  In (EvGenerateBindings args wd seen None) (trace (final p)) →
  exit_status p = 0%Z ∧ traceback p = None ∧
  mkdir_parents t (out_dir script) = Some seen ∧
  fs (final p) =
    write_files seen (out_dir script) (generate_bindings w args wd seen).2 ∧
  is_dir (fs (final p)) (out_dir script) = true ∧
  (entry_names (fs (final p)) (out_dir script) = [] ↔
   (generate_bindings w args wd seen).2 = [] ∧
   entry_names t (out_dir script) = []).
Proof.
  intros p. subst p. rewrite !entry_names_nil. run_cases.
  all: intros Hlib Hudl Hin; try discriminate.
  all: in_cases Hin ltac:(fun H => try discriminate H).
  all: simplify_eq.
  all: match goal with
       | H : generate_bindings _ _ _ _ = _ |- _ => rewrite H; simpl
       end.
  all: out_dir_made.
  all: match goal with
       | H : mkdir_parents _ _ = Some _ |- _ =>
           rewrite <- (mkdir_parents_glob _ _ _ H)
       end.
  all: split_and!; auto using write_files_keeps_out.
  all: by apply write_files_glob_nil.
Qed.

Lemma in_process_success_witness :
  path_exists built (lib_file script) = true ∧
  path_exists built (udl_file script) = true ∧
  In (EvGenerateBindings (gb_kwargs script) [] prepared None)
    (trace (final working_run)) ∧
  exit_status working_run = 0%Z ∧
  fs (final working_run) = write_files prepared (out_dir script) swift_files.
Proof.
  assert (path_exists built (lib_file script) = true) as Hlib
    by (vm_compute; reflexivity).
  assert (path_exists built (udl_file script) = true) as Hudl
    by (vm_compute; reflexivity).
  assert (In (EvGenerateBindings (gb_kwargs script) [] prepared None)
            (trace (final working_run))) as Hin
    by (vm_compute; find_event).
  destruct (in_process_success script python_works built [] _ _ _
              Hlib Hudl Hin) as (H1 & _ & _ & H4 & _).
  split_and!; [exact Hlib|exact Hudl|exact Hin|exact H1|exact H4].
Defined.

(** C2, as the claim has it, fails: a generator that returns without
    having written a file leaves the output directory empty, and the
    script still exits with status 0. *)
Lemma in_process_success_counterexample :
  path_exists built (lib_file script) = true ∧
  path_exists built (udl_file script) = true ∧
  In (EvGenerateBindings (gb_kwargs script) [] prepared None)
    (trace (final silent_run)) ∧
  ¬ (exit_status silent_run = 0%Z ∧
     entry_names (fs (final silent_run)) (out_dir script) ≠ []).
Proof.
  split_and!; try (vm_compute; reflexivity).
  - vm_compute. find_event.
  - intros [_ H]. apply H. vm_compute. reflexivity.
Qed.

(** C3. When an import of the in-process generator raises [ImportError],
    the script goes on: it prints the two lines of the fallback, changes to
    the core directory and runs cargo there.  The [ImportError] never
    reaches the top, and when cargo returns 0 the exit status is 0. *)
Theorem import_failure_falls_back script w t d ev msg :
  let p := run_script script w t d in
  In ev (trace (final p)) →
  import_raised ev = Some (ImportError msg) →
  traceback p = None ∧
  incl fallback_lines (stdout (final p)) ∧
  ∃ seen r,
    In (EvSubprocessRun (cargo_argv script) (core_dir script) seen r)
      (trace (final p)) ∧
    ∀ cp, r = inr cp → returncode cp = 0%Z → exit_status p = 0%Z.
Proof.
  intros p. subst p. run_cases.
  all: intros Hin Hev.
  all: try match goal with
       | Hu : path_exists _ (udl_file _) = true,
         Hm : mkdir_parents _ _ = Some _,
         Hc : chdir_result _ _ = Some _ |- _ =>
           rewrite (chdir_core_dir _ _ _ Hu Hm) in Hc; discriminate Hc
       end.
  all: in_cases Hin ltac:(fun H => subst ev; try discriminate Hev).
  all: split; [done|].
  all: (split; [intros a [<-|[<-|[]]]; simpl; tauto|]).
  all: eexists _, _; (split; [find_event|]).
  all: intros cp [= <-] Hrc; try done.
  all: nonzero_return; done.
Qed.

Lemma import_failure_falls_back_witness :
  In (EvImport "uniffi_bindgen" no_module) (trace (final cargo_run)) ∧
  traceback cargo_run = None ∧
  incl fallback_lines (stdout (final cargo_run)).
Proof.
  assert (In (EvImport "uniffi_bindgen" no_module)
            (trace (final cargo_run))) as Hin
    by (vm_compute; find_event).
  destruct (import_failure_falls_back script cargo_works built [] _
              "No module named 'uniffi_bindgen'" Hin eq_refl)
    as (H1 & H2 & _).
  split_and!; [exact Hin|exact H1|exact H2].
Defined.

(** C4. When the subprocess ends with a return code other than 0, the
    last two lines printed are the error line and the captured standard
    error, and the exit status is 1. *)
Theorem failing_subprocess_is_reported script w t d argv wd seen cp :
  let p := run_script script w t d in
  In (EvSubprocessRun argv wd seen (inr cp)) (trace (final p)) →
  returncode cp ≠ 0%Z →
  exit_status p = 1%Z ∧ traceback p = None ∧
  ∃ before,
    stdout (final p) = before ++ [generator_error_line; stderr cp].
Proof.
  intros p. subst p. run_cases.
  all: intros Hin Hrc.
  all: in_cases Hin ltac:(fun H => try discriminate H).
  all: simplify_eq.
  all: try (zero_return; done).
  all: split_and!; [done|done|split_off].
Qed.

Lemma failing_subprocess_is_reported_witness :
  In (EvSubprocessRun (cargo_argv script) (core_dir script) prepared
        (inr cargo_failed)) (trace (final failing_run)) ∧
  returncode cargo_failed ≠ 0%Z ∧
  exit_status failing_run = 1%Z.
Proof.
  assert (In (EvSubprocessRun (cargo_argv script) (core_dir script)
                prepared (inr cargo_failed))
            (trace (final failing_run))) as Hin
    by (vm_compute; find_event).
  assert (returncode cargo_failed ≠ 0%Z) as Hrc by (intros [=]).
  destruct (failing_subprocess_is_reported script cargo_fails built []
              _ _ _ _ Hin Hrc) as (H1 & _).
  split_and!; [exact Hin|exact Hrc|exact H1].
Defined.

(** C5, as the code has it. When [generate_bindings] raises an ordinary
    exception that is not an [ImportError], no handler takes it: it
    reaches the top, so the interpreter shows it and the exit status is 1.
    The script prints nothing after the line that reports the module as
    found, and the external-process strategy is not attempted. *)
Theorem in_process_exception_is_not_handled script w t d args wd seen e :
  let p := run_script script w t d in
  In (EvGenerateBindings args wd seen (Some e)) (trace (final p)) →
  is_Exception e = true →
  is_ImportError e = false →
  exit_status p = 1%Z ∧ traceback p = Some e ∧
  stdout (final p) = banner_lines script ++ [found_line] ∧
  trace (final p) =
    [EvImport "uniffi_bindgen" None;
     EvImportFrom "uniffi_bindgen" "generate_bindings" None;
     EvGenerateBindings args wd seen (Some e)].
Proof.
  intros p. subst p. run_cases.
  all: intros Hin Hexc Himp.
  all: in_cases Hin ltac:(fun H => try discriminate H).
  all: by simplify_eq.
Qed.

Lemma in_process_exception_is_not_handled_witness :
  In (EvGenerateBindings (gb_kwargs script) [] prepared (Some unsupported))
    (trace (final raising_run)) ∧
  exit_status raising_run = 1%Z ∧
  traceback raising_run = Some unsupported.
Proof.
  assert (In (EvGenerateBindings (gb_kwargs script) [] prepared
                (Some unsupported)) (trace (final raising_run))) as Hin
    by (vm_compute; find_event).
  destruct (in_process_exception_is_not_handled script python_raises
              built [] _ _ _ _ Hin eq_refl eq_refl) as (H1 & H2 & _).
  split_and!; [exact Hin|exact H1|exact H2].
Defined.

(** C5, as the claim has it, fails: [generate_bindings] raises an
    ordinary exception that is not an [ImportError], and the script prints
    none of the instructions for a manual generation. *)
Lemma in_process_exception_counterexample :
  In (EvGenerateBindings (gb_kwargs script) [] prepared (Some unsupported))
    (trace (final raising_run)) ∧
  is_Exception unsupported = true ∧
  is_ImportError unsupported = false ∧
  ¬ (exit_status raising_run = 1%Z ∧
     incl manual_lines (stdout (final raising_run))).
Proof.
  split_and!; try reflexivity.
  - vm_compute. find_event.
  - intros [_ H]. specialize (H _ (or_introl eq_refl)).
    vm_compute in H. intuition discriminate.
Qed.

(** C6. The listing step returns in every state.  When the output
    directory is absent it prints no listing; when the directory is empty
    it prints the header and no entry; the next steps follow in both
    cases. *)
Theorem listing_never_raises script s :
  ∃ listing,
    report script s =
      (Return tt,
       {| fs := fs s; cwd := cwd s;
          stdout := stdout s ++ listing ++ next_steps;
          trace := trace s |}) ∧
    (path_exists (fs s) (out_dir script) = false → listing = []) ∧
    (path_exists (fs s) (out_dir script) = true →
     glob_star (fs s) (out_dir script) = [] →
     listing = [listing_header]).
Proof.
  exists (listing_lines script (fs s)). split; [apply report_run|].
  unfold listing_lines. split.
  - by intros ->.
  - by intros -> ->.
Qed.

Lemma listing_never_raises_witness :
  path_exists built (out_dir script) = false ∧
  report script (initial built []) =
    (Return tt,
     {| fs := built; cwd := []; stdout := next_steps; trace := [] |}).
Proof.
  assert (path_exists built (out_dir script) = false) as H
    by (vm_compute; reflexivity).
  split; [exact H|].
  destruct (listing_never_raises script (initial built []))
    as (listing & Hrun & Habsent & _).
  rewrite (Habsent H) in Hrun. exact Hrun.
Defined.

(** C7. After a generation that succeeded, the script prints the line of
    success, the header of the listing, one entry for each entry of the
    output directory as it is after the run (each once, the names in
    order), and the four lines of the next steps; the exit status is 0. *)
Theorem generated_files_are_listed_in_order script w t d ev :
  let p := run_script script w t d in
  In ev (trace (final p)) →
  generation_succeeded ev = true →
  exit_status p = 0%Z ∧
  ∃ before names m,
    lookup_path (fs (final p)) (out_dir script) = Some (Dir m) ∧
    stdout (final p) =
      before ++ [success_line] ++
      listing_header :: (listing_entry <$> names) ++ next_steps ∧
    Sorted String.le names ∧
    NoDup names ∧
    ∀ n, In n names ↔ is_Some (m !! n).
Proof.
  intros p. subst p. run_cases.
  all: intros Hin Hev.
  all: in_cases Hin ltac:(fun H => subst ev; simpl in Hev; try congruence).
  all: split; [done|].
  all: out_dir_made.
  all: match goal with
       | |- context [listing_lines ?s ?t] =>
           destruct (listing_lines_entries s t)
             as (names & m & Hm & -> & Hs & Hnd & Hin);
             [by repeat apply write_files_keeps_out|]
       end.
  all: match goal with
       | |- ∃ b n m, _ ∧ ?l = _ ∧ _ =>
           first [ exists (take 5 l), names, m; split_and!;
                     [done|reflexivity|done|done|done]
                 | exists (take 6 l), names, m; split_and!;
                     [done|reflexivity|done|done|done]
                 | exists (take 7 l), names, m; split_and!;
                     [done|reflexivity|done|done|done] ]
       end.
Qed.

(** The names of a list in order, each once, are the list. *)
Lemma sorted_names_unique (names expected : list string) :
  Sorted String.le names → NoDup names →
  Sorted String.le expected → NoDup expected →
  (∀ n, In n names ↔ In n expected) →
  names = expected.
Proof.
  intros Hs Hnd Hs' Hnd' Hin.
  apply (Sorted_unique String.le); [done|done|].
  apply NoDup_Permutation; [done|done|].
  intros n. by rewrite !list_elem_of_In.
Qed.

Lemma generated_files_are_listed_in_order_witness :
  In (EvGenerateBindings (gb_kwargs script) [] prepared None)
    (trace (final working_run)) ∧
  exit_status working_run = 0%Z ∧
  ∃ before,
    stdout (final working_run) =
      before ++
      [success_line; listing_header;
       listing_entry "mepassa.swift";
       listing_entry "mepassaFFI.h";
       listing_entry "mepassaFFI.modulemap"] ++
      next_steps.
Proof.
  assert (In (EvGenerateBindings (gb_kwargs script) [] prepared None)
            (trace (final working_run))) as Hin
    by (vm_compute; find_event).
  destruct (generated_files_are_listed_in_order script python_works
              built [] _ Hin eq_refl)
    as (H1 & before & names & m & Hm & Hout & Hs & Hnd & Hnames).
  split_and!; [exact Hin|exact H1|].
  assert (lookup_path (fs (final working_run)) (out_dir script) =
          Some (Dir {[ "mepassa.swift" := File; "mepassaFFI.h" := File;
                       "mepassaFFI.modulemap" := File ]})) as Hm'
    by (vm_compute; reflexivity).
  change (run_script script python_works built []) with working_run in Hm.
  rewrite Hm' in Hm. injection Hm as <-.
  assert (names =
          ["mepassa.swift"; "mepassaFFI.h"; "mepassaFFI.modulemap"]) as ->.
  { apply sorted_names_unique; [done|done| | |].
    - repeat constructor.
    - apply NoDup_ListNoDup. repeat constructor; simpl; intuition discriminate.
    - intros n. rewrite Hnames, <- elem_of_dom.
      rewrite !dom_insert_L, dom_singleton_L, !elem_of_union,
        !elem_of_singleton. simpl. intuition. }
  exists before. exact Hout.
Defined.

(** C8. The library is checked first: when both inputs are missing, the
    script prints the banner, the line about the library and the advice to
    build it, and exits with status 1; the line about the interface
    definition is not printed. *)
Theorem library_is_checked_first script w t d :
  path_exists t (lib_file script) = false →
  path_exists t (udl_file script) = false →
  let p := run_script script w t d in
  exit_status p = 1%Z ∧
  stdout (final p) =
    banner_lines script ++ lib_missing_line script :: build_advice ∧
  ¬ In (udl_missing_line script) (stdout (final p)).
Proof.
  intros Hlib Hudl p. subst p. unfold_script. rewrite Hlib. simpl.
  split_and!; [done|done|]. unfold udl_missing_line. not_among.
Qed.

Lemma library_is_checked_first_witness :
  path_exists bare (lib_file script) = false ∧
  path_exists bare (udl_file script) = false ∧
  exit_status bare_run = 1%Z ∧
  ¬ In (udl_missing_line script) (stdout (final bare_run)).
Proof.
  assert (path_exists bare (lib_file script) = false) as Hlib
    by (vm_compute; reflexivity).
  assert (path_exists bare (udl_file script) = false) as Hudl
    by (vm_compute; reflexivity).
  destruct (library_is_checked_first script python_works bare []
              Hlib Hudl) as (H1 & _ & H3).
  split_and!; [exact Hlib|exact Hudl|exact H1|exact H3].
Defined.




(** C10. In the external-process strategy, [sys.exit(1)] after a return
    code other than 0 passes the handler of [except Exception]: the exit
    status is 1 and the instructions for a manual generation are not
    printed.  When a step of the strategy raises an ordinary exception,
    the handler prints its message and the instructions, and the exit
    status is 1.  The instructions are printed in no other run. *)
Theorem guidance_only_for_ordinary_exceptions script w t d :
  let p := run_script script w t d in
  (∀ argv wd seen cp,
     In (EvSubprocessRun argv wd seen (inr cp)) (trace (final p)) →
     returncode cp ≠ 0%Z →
     exit_status p = 1%Z ∧ traceback p = None ∧ ¬ guidance_shown p) ∧
  (∀ ev e,
     In ev (trace (final p)) →
     fallback_raised ev = Some e →
     is_Exception e = true →
     exit_status p = 1%Z ∧ traceback p = None ∧
     ∃ before, stdout (final p) = before ++ guidance_lines e) ∧
  (guidance_shown p →
   ∃ ev e,
     In ev (trace (final p)) ∧ fallback_raised ev = Some e ∧
     is_Exception e = true).
Proof.
  intros p. subst p. unfold guidance_shown. run_cases.
  all: split_and!.
  all: try (intros argv wd seen cp Hin Hrc;
            in_cases Hin ltac:(fun H => try discriminate H);
            simplify_eq; try (zero_return; done);
            (split_and!; [done|done|no_guidance])).
  all: try (intros ev e Hin Hev Hexc;
            in_cases Hin
              ltac:(fun H => subst ev; simpl in Hev; try discriminate Hev);
            simplify_eq; try discriminate Hexc;
            (split_and!; [done|done|split_off])).
  all: try no_guidance.
  all: intros _;
    first [ guidance_event 0 | guidance_event 1 | guidance_event 2
          | guidance_event 3 | guidance_event 4 ].
Qed.

Lemma guidance_only_for_ordinary_exceptions_witness :
  In (EvSubprocessRun (cargo_argv script) (core_dir script) prepared
        (inr cargo_failed)) (trace (final failing_run)) ∧
  exit_status failing_run = 1%Z ∧ ¬ guidance_shown failing_run.
Proof.
  assert (In (EvSubprocessRun (cargo_argv script) (core_dir script)
                prepared (inr cargo_failed))
            (trace (final failing_run))) as Hin
    by (vm_compute; find_event).
  assert (returncode cargo_failed ≠ 0%Z) as Hrc by (intros [=]).
  destruct (guidance_only_for_ordinary_exceptions script cargo_fails
              built []) as (Ha & _ & _).
  destruct (Ha _ _ _ _ Hin Hrc) as (H1 & _ & H3).
  split_and!; [exact Hin|exact H1|exact H3].
Defined.

End Runs.

(** ** Writing into the output directory: what it leaves alone *)

Section Frame.

Lemma prefix_cons_inv_tail (c : string) (p q : path) :
  (c :: p) `prefix_of` (c :: q) → p `prefix_of` q.
Proof. intros [k E]. exists k. by injection E. Qed.

(** A path that is neither the directory written into nor below it keeps
    its node, up to what lies below that node. *)
Lemma update_dir_frame (p : path) (t : node)
    (f : gmap string node → gmap string node) (q : path) (n : node) :
  ¬ p `prefix_of` q →
  lookup_path t q = Some n →
  ∃ n', lookup_path (update_dir t p f) q = Some n' ∧ kind n' = kind n.
Proof.
  revert t q n. induction p as [|c p IH]; intros t q n Hp Hq.
  - destruct Hp. apply prefix_nil.
  - destruct t as [|m]; simpl.
    + by exists n.
    + destruct q as [|c' q]; simpl in *.
      * injection Hq as <-. by eexists.
      * destruct (decide (c = c')) as [<-|Hne].
        -- rewrite lookup_alter_eq.
           destruct (m !! c) as [x|]; simpl; [|done].
           apply IH; [|done]. intros Hpre. apply Hp.
           by apply prefix_cons.
        -- rewrite lookup_alter_ne by done.
           destruct (m !! c') as [x|]; [|done]. by exists n.
Qed.

Lemma write_files_frame (t : node) (d : path) (names : list string)
    (q : path) (n : node) :
  ¬ d `prefix_of` q →
  lookup_path t q = Some n →
  ∃ n', lookup_path (write_files t d names) q = Some n' ∧ kind n' = kind n.
Proof. apply update_dir_frame. Qed.

Lemma write_files_frame_dir (t : node) (d : path) (names : list string)
    (q : path) :
  ¬ d `prefix_of` q →
  is_dir t q = true → is_dir (write_files t d names) q = true.
Proof.
  unfold is_dir. intros Hp Hq.
  destruct (lookup_path t q) as [[|m]|] eqn:E; try done.
  destruct (write_files_frame t d names q _ Hp E) as (n' & -> & Hk).
  by destruct n'.
Qed.

(** The entries of a directory, by name. *)
Lemma entry_names_spec (t : node) (d : path) (m : gmap string node)
    (n : string) :
  lookup_path t d = Some (Dir m) →
  In n (entry_names t d) ↔ is_Some (m !! n).
Proof.
  intros H. unfold entry_names, glob_star. rewrite H.
  rewrite <- list_fmap_compose, <- list_elem_of_In, list_elem_of_fmap.
  split.
  - intros ([k x] & -> & Hin). simpl. rewrite name_joinpath.
    apply elem_of_map_to_list in Hin. by exists x.
  - intros [x Hx]. exists (n, x). simpl. rewrite name_joinpath.
    split; [done|]. by apply elem_of_map_to_list.
Qed.

Lemma entry_names_is_dir (t : node) (d : path) (n : string) :
  In n (entry_names t d) → is_dir t d = true.
Proof.
  unfold entry_names, glob_star, is_dir.
  by destruct (lookup_path t d) as [[|m]|].
Qed.

Lemma lookup_written (m : gmap string node) (names : list string)
    (k : string) :
  is_Some (m !! k) →
  is_Some (foldr (fun n m' => <[n := File]> m') m names !! k).
Proof.
  intros H. induction names as [|n names IH]; simpl; [done|].
  destruct (decide (n = k)) as [->|Hne].
  - rewrite lookup_insert_eq. by eexists.
  - by rewrite lookup_insert_ne.
Qed.

Lemma lookup_written_new (m : gmap string node) (names : list string)
    (k : string) :
  In k names →
  foldr (fun n m' => <[n := File]> m') m names !! k = Some File.
Proof.
  induction names as [|n names IH]; simpl; [done|].
  intros [->|Hin].
  - apply lookup_insert_eq.
  - destruct (decide (n = k)) as [->|Hne].
    + apply lookup_insert_eq.
    + rewrite lookup_insert_ne by done. auto.
Qed.

(** What was in the directory stays in it when files are written. *)
Lemma write_files_keeps_entries (t : node) (d : path) (names : list string)
    (n : string) :
  In n (entry_names t d) → In n (entry_names (write_files t d names) d).
Proof.
  intros Hin. pose proof (entry_names_is_dir _ _ _ Hin) as Hd.
  unfold is_dir in Hd.
  destruct (lookup_path t d) as [[|m]|] eqn:E; try done.
  rewrite (entry_names_spec _ _ _ _ E) in Hin. unfold write_files.
  rewrite (entry_names_spec _ _ _ _ (update_dir_lookup d t m _ E)).
  by apply lookup_written.
Qed.

(** What is written is in the directory afterwards. *)
Lemma write_files_adds_entries (t : node) (d : path) (names : list string)
    (n : string) :
  is_dir t d = true →
  In n names → In n (entry_names (write_files t d names) d).
Proof.
  unfold is_dir. intros Hd Hin.
  destruct (lookup_path t d) as [[|m]|] eqn:E; try done.
  unfold write_files.
  rewrite (entry_names_spec _ _ _ _ (update_dir_lookup d t m _ E)).
  rewrite (lookup_written_new _ _ _ Hin). by eexists.
Qed.

Lemma mkdir_parents_entries (p : path) (t t' : node) :
  mkdir_parents t p = Some t' → entry_names t' p = entry_names t p.
Proof.
  intros H. unfold entry_names. by rewrite (mkdir_parents_glob _ _ _ H).
Qed.

(** [mkdir] changes nothing when the directory is there. *)
Lemma mkdir_parents_exist_ok (p : path) (t : node) :
  is_dir t p = true → mkdir_parents t p = Some t.
Proof.
  revert t. unfold is_dir.
  induction p as [|c p IH]; intros [|m]; simpl; try done.
  destruct (m !! c) as [x|] eqn:Hc; [|done]. simpl.
  intros H. rewrite (IH _ H). by rewrite insert_id.
Qed.

End Frame.

(** ** Where the paths lie *)

Section Layout.

(** A script path has a directory and a name below some root, or is so
    short that both parents are the root. *)
Lemma script_cases (script : path) :
  (parent script = [] ∧ parent (parent script) = []) ∨
  ∃ root dir file, script = root ++ [dir; file].
Proof.
  unfold parent.
  destruct script as [|file script _] using rev_ind; [by left|].
  rewrite removelast_last.
  destruct script as [|dir root _] using rev_ind; [by left|].
  right. exists root, dir, file. by rewrite <- app_assoc.
Qed.

Lemma parents_below (root : path) (dir file : string) :
  parent (root ++ [dir; file]) = root ++ [dir] ∧
  parent (parent (root ++ [dir; file])) = root.
Proof.
  unfold parent.
  change [dir; file] with ([dir] ++ [file]).
  by rewrite app_assoc, !removelast_last.
Qed.

Ltac layout script :=
  unfold out_dir, udl_file, lib_file; unfold core_dir;
  unfold project_root, joinpath;
  destruct (script_cases script) as [[H1 H2]|(root & dir & file & ->)];
  [ rewrite ?H2, ?H1; simpl
  | destruct (parents_below root dir file) as [H1 H2];
    rewrite ?H2, ?H1, <- ?app_assoc; simpl ];
  intros [k E];
  rewrite <- ?app_assoc in E; simpl in E;
  try apply app_inv_head in E;
  first [ discriminate E
        | injection E as _ E; discriminate E
        | injection E as _ _ E; discriminate E ].

(** The output directory holds none of the paths the script reads. *)
Lemma core_dir_outside (script : path) :
  ¬ out_dir script `prefix_of` core_dir script.
Proof. layout script. Qed.

Lemma udl_file_outside (script : path) :
  ¬ out_dir script `prefix_of` udl_file script.
Proof. layout script. Qed.

Lemma lib_file_outside (script : path) :
  ¬ out_dir script `prefix_of` lib_file script.
Proof. layout script. Qed.

End Layout.

(** ** Every run has one of the shapes *)

Section Shapes.

Local Arguments String.append : simpl never.
Local Arguments str : simpl never.
Local Arguments report : simpl never.
Local Arguments fallback : simpl never.
Local Arguments Z.modulo : simpl never.

Lemma run_script_finish (script : path) (w : world) (t : node) (d : path) :
  run_script script w t d =
  finish (main script w (initial t d)).1 (main script w (initial t d)).2.
Proof.
  unfold run_script, finish.
  destruct (main script w (initial t d)) as [[u|e] s]; simpl; [done|].
  by destruct e.
Qed.

Ltac unfold_fallback :=
  unfold fallback, external_process, manual_guidance, try_except, bind, ret,
    print, chdir, run, raise, sys_exit; simpl.

(** The outer handler, once [os.chdir] is known to succeed: what it does
    for each way the subprocess can end. *)
Lemma fallback_raises (script : path) (w : world) (e0 : exn) (s : state)
    (e : exn) (written : list string) :
  chdir_result (fs s) (core_dir script) = None →
  subprocess_run w (cargo_argv script) (core_dir script) (fs s) =
    (inl e, written) →
  is_Exception e = true →
  fallback script w e0 s =
  (Raise (SystemExit 1),
   {| fs := write_files (fs s) (out_dir script) written;
      cwd := core_dir script;
      stdout := stdout s ++ fallback_lines ++ guidance_lines e;
      trace := trace s ++
               [EvChdir (core_dir script) None;
                EvSubprocessRun (cargo_argv script) (core_dir script) (fs s)
                  (inl e)] |}).
Proof.
  intros Hcd Hsp He. unfold_fallback. rewrite Hcd. simpl.
  unfold cargo_argv in Hsp. rewrite Hsp. simpl. rewrite He. simpl.
  by rewrite <- !app_assoc.
Qed.

Lemma fallback_exits (script : path) (w : world) (e0 : exn) (s : state)
    (c : Z) (written : list string) :
  chdir_result (fs s) (core_dir script) = None →
  subprocess_run w (cargo_argv script) (core_dir script) (fs s) =
    (inl (SystemExit c), written) →
  fallback script w e0 s =
  (Raise (SystemExit c),
   {| fs := write_files (fs s) (out_dir script) written;
      cwd := core_dir script;
      stdout := stdout s ++ fallback_lines;
      trace := trace s ++
               [EvChdir (core_dir script) None;
                EvSubprocessRun (cargo_argv script) (core_dir script) (fs s)
                  (inl (SystemExit c))] |}).
Proof.
  intros Hcd Hsp. unfold_fallback. rewrite Hcd. simpl.
  unfold cargo_argv in Hsp. rewrite Hsp. simpl.
  by rewrite <- !app_assoc.
Qed.

Lemma fallback_fails (script : path) (w : world) (e0 : exn) (s : state)
    (cp : CompletedProcess) (written : list string) :
  chdir_result (fs s) (core_dir script) = None →
  subprocess_run w (cargo_argv script) (core_dir script) (fs s) =
    (inr cp, written) →
  returncode cp ≠ 0%Z →
  fallback script w e0 s =
  (Raise (SystemExit 1),
   {| fs := write_files (fs s) (out_dir script) written;
      cwd := core_dir script;
      stdout := stdout s ++ fallback_lines ++
                [generator_error_line; stderr cp];
      trace := trace s ++
               [EvChdir (core_dir script) None;
                EvSubprocessRun (cargo_argv script) (core_dir script) (fs s)
                  (inr cp)] |}).
Proof.
  intros Hcd Hsp Hrc. unfold_fallback. rewrite Hcd. simpl.
  unfold cargo_argv in Hsp. rewrite Hsp. simpl.
  apply Z.eqb_neq in Hrc. rewrite Hrc. simpl.
  by rewrite <- !app_assoc.
Qed.

Lemma fallback_succeeds (script : path) (w : world) (e0 : exn) (s : state)
    (cp : CompletedProcess) (written : list string) :
  chdir_result (fs s) (core_dir script) = None →
  subprocess_run w (cargo_argv script) (core_dir script) (fs s) =
    (inr cp, written) →
  returncode cp = 0%Z →
  fallback script w e0 s =
  (Return tt,
   {| fs := write_files (fs s) (out_dir script) written;
      cwd := core_dir script;
      stdout := stdout s ++ fallback_lines ++ [success_line];
      trace := trace s ++
               [EvChdir (core_dir script) None;
                EvSubprocessRun (cargo_argv script) (core_dir script) (fs s)
                  (inr cp)] |}).
Proof.
  intros Hcd Hsp Hrc. unfold_fallback. rewrite Hcd. simpl.
  unfold cargo_argv in Hsp. rewrite Hsp. simpl.
  apply Z.eqb_eq in Hrc. rewrite Hrc. simpl.
  by rewrite <- !app_assoc.
Qed.

(** Wherever the handler is entered from, the core directory is there. *)
Lemma fallback_entry_chdir (script : path) (w : world) (t : node) (d : path)
    (t1 : node) (lines : list string) (events : list event) (t2 : node) :
  path_exists t (udl_file script) = true →
  mkdir_parents t (out_dir script) = Some t1 →
  fallback_entry script w d t1 lines events t2 →
  chdir_result t2 (core_dir script) = None.
Proof.
  intros Hudl Hmk Hentry.
  pose proof (chdir_core_dir _ _ _ Hudl Hmk) as Hcd.
  destruct Hentry; try done.
  assert (is_dir (write_files t1 (out_dir script) written) (core_dir script)
          = true) as Hd.
  { apply write_files_frame_dir; [apply core_dir_outside|].
    unfold chdir_result in Hcd. unfold is_dir.
    by destruct (lookup_path t1 (core_dir script)) as [[|m]|]. }
  unfold is_dir in Hd. unfold chdir_result.
  by destruct (lookup_path _ (core_dir script)) as [[|m]|].
Qed.

Lemma fallback_shape (script : path) (w : world) (t : node) (d : path)
    (t1 : node) (lines : list string) (events : list event) (t2 : node)
    (e0 : exn) :
  path_exists t (lib_file script) = true →
  path_exists t (udl_file script) = true →
  mkdir_parents t (out_dir script) = Some t1 →
  fallback_entry script w d t1 lines events t2 →
  let s := {| fs := t2; cwd := d; stdout := lines; trace := events |} in
  let end_ := bind (fallback script w e0) (fun _ => report script) s in
  main_shape script w t d end_.1 end_.2.
Proof.
  intros Hlib Hudl Hmk Hentry s end_. subst end_. unfold bind.
  assert (chdir_result (fs s) (core_dir script) = None) as Hcd
    by apply (fallback_entry_chdir _ _ _ _ _ _ _ _ Hudl Hmk Hentry).
  destruct (subprocess_run w (cargo_argv script) (core_dir script) (fs s))
    as [[e|cp] written] eqn:Hsp.
  - destruct (is_Exception e) eqn:He.
    + rewrite (fallback_raises _ _ _ _ _ _ Hcd Hsp He). simpl.
      exact (CargoRaises _ _ _ _ _ _ _ _ _ _ Hlib Hudl Hmk Hentry Hsp He).
    + destruct e; try discriminate He.
      rewrite (fallback_exits _ _ _ _ _ _ Hcd Hsp). simpl.
      exact (CargoExits _ _ _ _ _ _ _ _ _ _ Hlib Hudl Hmk Hentry Hsp).
  - destruct (decide (returncode cp = 0%Z)) as [Hrc|Hrc].
    + rewrite (fallback_succeeds _ _ _ _ _ _ Hcd Hsp Hrc).
      rewrite report_run. simpl. rewrite <- !app_assoc.
      exact (CargoGenerated _ _ _ _ _ _ _ _ _ _
               Hlib Hudl Hmk Hentry Hsp Hrc).
    + rewrite (fallback_fails _ _ _ _ _ _ Hcd Hsp Hrc). simpl.
      exact (CargoFails _ _ _ _ _ _ _ _ _ _ Hlib Hudl Hmk Hentry Hsp Hrc).
Qed.

(** The shapes are all there is: every run of [main] from a fresh
    interpreter has one of them. *)
Lemma main_has_shape (script : path) (w : world) (t : node) (d : path) :
  main_shape script w t d
    (main script w (initial t d)).1 (main script w (initial t d)).2.
Proof.
  unfold main, banner, check_inputs, in_process, initial.
  unfold try_except, when, exists_, mkdir, import_stmt, log,
    call_generate_bindings, sys_exit, bind, ret, print, raise.
  simpl.
  destruct (path_exists t (lib_file script)) eqn:Hlib; simpl;
    [|exact (NoLibrary _ _ _ _ Hlib)].
  destruct (path_exists t (udl_file script)) eqn:Hudl; simpl;
    [|exact (NoInterface _ _ _ _ Hlib Hudl)].
  destruct (mkdir_parents t (out_dir script)) as [t1|] eqn:Hmk; simpl;
    [|exact (MkdirRaises _ _ _ _ _ Hlib Hudl Hmk)].
  destruct (import_uniffi_bindgen w) as [e|] eqn:Hi1; simpl.
  { destruct (is_ImportError e) eqn:He; simpl.
    - destruct e; try discriminate He.
      exact (fallback_shape script w t d t1 _ _ _ (ImportError msg)
               Hlib Hudl Hmk (EntryImport _ _ _ _ msg Hi1)).
    - exact (ImportRaises _ _ _ _ t1 e Hlib Hudl Hmk Hi1 He). }
  destruct (import_generate_bindings w) as [e|] eqn:Hi2; simpl.
  { destruct (is_ImportError e) eqn:He; simpl.
    - destruct e; try discriminate He.
      exact (fallback_shape script w t d t1 _ _ _ (ImportError msg)
               Hlib Hudl Hmk (EntryImportFrom _ _ _ _ msg Hi1 Hi2)).
    - exact (ImportFromRaises _ _ _ _ t1 e Hlib Hudl Hmk Hi1 Hi2 He). }
  fold (gb_kwargs script).
  destruct (generate_bindings w (gb_kwargs script) d t1)
    as [[e|] written] eqn:Hgen; simpl.
  { destruct (is_ImportError e) eqn:He; simpl.
    - destruct e; try discriminate He.
      exact (fallback_shape script w t d t1 _ _ _ (ImportError msg)
               Hlib Hudl Hmk
               (EntryGenerator _ _ _ _ msg written Hi1 Hi2 Hgen)).
    - exact (GeneratorRaises _ _ _ _ t1 e written
               Hlib Hudl Hmk Hi1 Hi2 Hgen He). }
  rewrite report_run. simpl.
  exact (Generated _ _ _ _ t1 written Hlib Hudl Hmk Hi1 Hi2 Hgen).
Qed.

(** To reason on a run: it is [finish] of a result and a state that have
    one of the shapes. *)
Lemma run_script_shape (script : path) (w : world) (t : node) (d : path) :
  ∃ r s, run_script script w t d = finish r s ∧ main_shape script w t d r s.
Proof.
  eexists _, _. split; [apply run_script_finish|apply main_has_shape].
Qed.

End Shapes.

(** ** What every run does *)

Section EveryRun.

Import Samples Corners.

Lemma final_finish (r : result unit) (s : state) : final (finish r s) = s.
Proof. destruct r as [u|e]; [done|]. by destruct e. Qed.

Lemma exit_status_uncaught (e : exn) (s : state) :
  is_Exception e = true → exit_status (finish (Raise e) s) = 1%Z.
Proof. by destruct e. Qed.

(** Takes the run of the goal apart into its shapes. *)
Ltac by_shape script w t d :=
  let r := fresh "r" in
  let s := fresh "s" in
  let E := fresh "E" in
  let Hshape := fresh "Hshape" in
  destruct (run_script_shape script w t d) as (r & s & E & Hshape);
  rewrite E in *; clear E; rewrite ?final_finish in *;
  destruct Hshape;
  try match goal with
      | H : fallback_entry _ _ _ _ _ _ _ |- _ => destruct H
      end;
  simpl in *.

Ltac find_event := simpl; repeat first [left; reflexivity | right].

Ltac in_cases H tac :=
  repeat lazymatch type of H with
         | _ ∨ _ => destruct H as [H|H]; [tac H|]
         end;
  try (exfalso; exact H).

Ltac lines_differ :=
  let E := fresh in
  intros E; lazy beta iota zeta delta [String.append nl] in E; discriminate E.

Ltac not_among :=
  simpl;
  repeat (let E := fresh in
          intros [E|E]; [revert E; lines_differ|revert E]);
  tauto.

(** The traces of the sample runs. *)
Lemma trace_working_run :
  trace (final working_run) =
  [ev_import None; ev_import_from None;
   EvGenerateBindings (gb_kwargs script) [] prepared None].
Proof. vm_compute. reflexivity. Qed.

Lemma trace_cargo_run :
  trace (final cargo_run) =
  [ev_import no_module; EvChdir (core_dir script) None;
   EvSubprocessRun (cargo_argv script) (core_dir script) prepared
     (inr cargo_ok)].
Proof. vm_compute. reflexivity. Qed.

Lemma trace_failing_run :
  trace (final failing_run) =
  [ev_import no_module; EvChdir (core_dir script) None;
   EvSubprocessRun (cargo_argv script) (core_dir script) prepared
     (inr cargo_failed)].
Proof. vm_compute. reflexivity. Qed.

Lemma trace_half_installed_run :
  trace (final half_installed_run) =
  [ev_import None; ev_import_from None;
   EvGenerateBindings (gb_kwargs script) [] prepared
     (Some (ImportError "No module named 'toml'"));
   EvChdir (core_dir script) None;
   EvSubprocessRun (cargo_argv script) (core_dir script)
     (write_files prepared (out_dir script) ["mepassa.swift"])
     (inr cargo_ok)].
Proof. vm_compute. reflexivity. Qed.

Ltac member := unfold In; repeat first [left; reflexivity | right].

(** Closes a goal by an event of the trace that makes the hypothesis [H]
    on all events absurd. *)
Tactic Notation "event_at" integer(k) "refutes" hyp(H) :=
  solve [eapply H; [simpl; do k right; left; reflexivity|reflexivity]].

(** Gives the event at a place of the trace as the witness. *)
Tactic Notation "witness_at" integer(k) :=
  solve [eexists; split;
         [simpl; do k right; left; reflexivity
         |simpl; try apply Z.eqb_eq; done]].

(** Closes a goal by a call of a generator in the trace, when [H] says
    there is none. *)
Tactic Notation "attempt_at" integer(k) "refutes" hyp(H) :=
  solve [exfalso;
         eassert (generation_attempt _ = None) as X
           by (apply H; do k right; left; reflexivity);
         simpl in X; discriminate X].

Ltac refuted_by H :=
  exfalso;
  first [ event_at 0 refutes H | event_at 1 refutes H
        | event_at 2 refutes H | event_at 3 refutes H
        | event_at 4 refutes H ].

(** X1. Every run begins by printing the four lines of the banner. *)
Theorem banner_is_printed_first script w t d :
  ∃ rest,
    stdout (final (run_script script w t d)) = banner_lines script ++ rest.
Proof.
  by_shape script w t d.
  all: rewrite <- ?app_assoc; try (by eexists).
  all: by exists [].
Qed.

(** X2. Unless an outside call itself raises [SystemExit], the exit status
    is 0 or 1, and it is 0 exactly when a generation succeeded. *)
Theorem exit_status_says_whether_generated script w t d :
  let p := run_script script w t d in
  (∀ ev c, In ev (trace (final p)) → event_raised ev ≠ Some (SystemExit c)) →
  (exit_status p = 0%Z ∧
   ∃ ev, In ev (trace (final p)) ∧ generation_succeeded ev = true) ∨
  (exit_status p = 1%Z ∧
   ∀ ev, In ev (trace (final p)) → generation_succeeded ev = false).
Proof.
  intros p. subst p. by_shape script w t d.
  all: intros Hno.
  all: try match goal with
           | He : is_ImportError ?e = false |- _ =>
               destruct e; try discriminate He; try refuted_by Hno
           end.
  all: try refuted_by Hno.
  all: try (left; split; [reflexivity|];
            first [ witness_at 2 | witness_at 3 | witness_at 4 | witness_at 5 ]).
  all: right; split; [reflexivity|].
  all: intros ev Hin; in_cases Hin ltac:(fun H => subst ev; simpl).
  all: try reflexivity.
  all: by apply Z.eqb_neq.
Qed.

Lemma exit_status_says_whether_generated_witness :
  (∀ ev c, In ev (trace (final failing_run)) →
           event_raised ev ≠ Some (SystemExit c)) ∧
  exit_status failing_run = 1%Z.
Proof.
  assert (∀ ev c, In ev (trace (final failing_run)) →
                  event_raised ev ≠ Some (SystemExit c)) as Hno.
  { intros ev c Hin. rewrite trace_failing_run in Hin. unfold In in Hin.
    in_cases Hin
      ltac:(fun H => subst ev; intros E; lazy in E; discriminate E). }
  split; [exact Hno|].
  destruct (exit_status_says_whether_generated script cargo_fails built []
              Hno) as [[_ (ev & Hin & Hev)]|[H _]]; [|exact H].
  exfalso. change (In ev (trace (final failing_run))) in Hin.
  rewrite trace_failing_run in Hin. unfold In in Hin.
  in_cases Hin ltac:(fun H => subst ev; lazy in Hev; discriminate Hev).
Defined.

(** X3. The external-process strategy is used only after an [ImportError]
    in the in-process strategy: whenever the script changes directory or
    starts cargo, an import statement or the call of [generate_bindings]
    has raised [ImportError] before. *)
Theorem fallback_only_after_import_error script w t d ev :
  let p := run_script script w t d in
  In ev (trace (final p)) →
  is_fallback_event ev = true →
  ∃ ev0 msg,
    In ev0 (trace (final p)) ∧ in_process_raised ev0 = Some (ImportError msg).
Proof.
  intros p. subst p. by_shape script w t d.
  all: intros Hin Hev.
  all: in_cases Hin ltac:(fun H => subst ev; try discriminate Hev).
  all: eexists _, _.
  all: first [ solve [split; [simpl; left; reflexivity|reflexivity]]
             | solve [split; [simpl; right; left; reflexivity|reflexivity]]
             | solve [split; [simpl; do 2 right; left; reflexivity
                             |reflexivity]] ].
Qed.

Lemma fallback_only_after_import_error_witness :
  In (EvChdir (core_dir script) None) (trace (final cargo_run)) ∧
  ∃ ev0 msg,
    In ev0 (trace (final cargo_run)) ∧
    in_process_raised ev0 = Some (ImportError msg).
Proof.
  assert (In (EvChdir (core_dir script) None) (trace (final cargo_run)))
    as Hin by (rewrite trace_cargo_run; member).
  split; [exact Hin|].
  exact (fallback_only_after_import_error script cargo_works built [] _
           Hin eq_refl).
Defined.

(** X4. An [ImportError] raised by the call of [generate_bindings] is
    handled like a missing module: after the line that reports the module
    as found, the script prints that it was not found, and runs cargo on
    the file system as the generator left it. *)
Theorem import_error_inside_generator_falls_back script w t d
    args wd seen msg :
  let p := run_script script w t d in
  In (EvGenerateBindings args wd seen (Some (ImportError msg)))
    (trace (final p)) →
  In found_line (stdout (final p)) ∧
  incl fallback_lines (stdout (final p)) ∧
  ∃ r,
    In (EvSubprocessRun (cargo_argv script) (core_dir script)
          (write_files seen (out_dir script)
             (generate_bindings w args wd seen).2) r)
      (trace (final p)).
Proof.
  intros p. subst p. by_shape script w t d.
  all: intros Hin.
  all: in_cases Hin ltac:(fun H => try discriminate H).
  all: simplify_eq.
  all: match goal with
       | H : generate_bindings _ _ _ _ = _ |- _ => rewrite H; simpl
       end.
  all: split_and!;
    [ tauto
    | intros a [<-|[<-|[]]]; simpl; tauto
    | eexists; find_event ].
Qed.

Lemma import_error_inside_generator_falls_back_witness :
  In (EvGenerateBindings (gb_kwargs script) [] prepared
        (Some (ImportError "No module named 'toml'")))
    (trace (final half_installed_run)) ∧
  In found_line (stdout (final half_installed_run)) ∧
  incl fallback_lines (stdout (final half_installed_run)).
Proof.
  assert (In (EvGenerateBindings (gb_kwargs script) [] prepared
                (Some (ImportError "No module named 'toml'")))
            (trace (final half_installed_run))) as Hin
    by (rewrite trace_half_installed_run; member).
  destruct (import_error_inside_generator_falls_back script half_installed
              built [] _ _ _ _ Hin) as (H1 & H2 & _).
  split_and!; [exact Hin|exact H1|exact H2].
Defined.

(** X5. Cargo is always started with the command line of the source, in
    the core directory, and the core directory is there. *)
Theorem cargo_runs_in_core_dir script w t d argv wd seen r :
  let p := run_script script w t d in
  In (EvSubprocessRun argv wd seen r) (trace (final p)) →
  argv = cargo_argv script ∧ wd = core_dir script ∧
  is_dir seen (core_dir script) = true ∧
  In (EvChdir (core_dir script) None) (trace (final p)).
Proof.
  intros p. subst p.
  destruct (run_script_shape script w t d) as (r0 & s & -> & Hshape).
  rewrite final_finish.
  destruct Hshape; simpl.
  all: try match goal with
       | Hu : path_exists _ (udl_file _) = true,
         Hm : mkdir_parents _ _ = Some _,
         He : fallback_entry _ _ _ _ _ _ _ |- _ =>
           pose proof (fallback_entry_chdir _ _ _ _ _ _ _ _ Hu Hm He) as Hcd;
           destruct He; simpl
       end.
  all: intros Hin.
  all: in_cases Hin ltac:(fun H => try discriminate H).
  all: simplify_eq.
  all: split_and!; [done|done| |find_event].
  all: unfold chdir_result in Hcd; unfold is_dir.
  all: by destruct (lookup_path _ (core_dir script)) as [[|m]|].
Qed.

Lemma cargo_runs_in_core_dir_witness :
  In (EvSubprocessRun (cargo_argv script) (core_dir script) prepared
        (inr cargo_ok)) (trace (final cargo_run)) ∧
  is_dir prepared (core_dir script) = true.
Proof.
  assert (In (EvSubprocessRun (cargo_argv script) (core_dir script) prepared
                (inr cargo_ok)) (trace (final cargo_run))) as Hin
    by (rewrite trace_cargo_run; member).
  destruct (cargo_runs_in_core_dir script cargo_works built [] _ _ _ _ Hin)
    as (_ & _ & H & _).
  split; [exact Hin|exact H].
Defined.

(** X6. The process is left in the core directory when the
    external-process strategy was used, and where it was started
    otherwise. *)
Theorem working_directory_after_the_run script w t d :
  let p := run_script script w t d in
  cwd (final p) =
  if existsb is_fallback_event (trace (final p))
  then core_dir script
  else d.
Proof.
  intros p. subst p. by_shape script w t d.
  all: reflexivity.
Qed.

(** X7. There are no retries: in every run [generate_bindings] is called
    at most once and cargo is started at most once. *)
Theorem each_generator_is_called_at_most_once script w t d :
  let p := run_script script w t d in
  length (List.filter is_generate_bindings (trace (final p))) ≤ 1 ∧
  length (List.filter is_subprocess_run (trace (final p))) ≤ 1.
Proof.
  intros p. subst p. by_shape script w t d.
  all: lia.
Qed.

(** X8. The in-process generator is called with the keyword arguments of
    the source, in the directory the script was started in, on the file
    system as [mkdir] left it. *)
Theorem in_process_generator_call script w t d args wd seen r :
  let p := run_script script w t d in
  In (EvGenerateBindings args wd seen r) (trace (final p)) →
  args = gb_kwargs script ∧ wd = d ∧
  mkdir_parents t (out_dir script) = Some seen ∧
  r = (generate_bindings w args wd seen).1.
Proof.
  intros p. subst p. by_shape script w t d.
  all: intros Hin.
  all: in_cases Hin ltac:(fun H => try discriminate H).
  all: simplify_eq.
  all: match goal with
       | H : generate_bindings _ _ _ _ = _ |- _ => by rewrite H
       end.
Qed.

Lemma in_process_generator_call_witness :
  In (EvGenerateBindings (gb_kwargs script) [] prepared None)
    (trace (final working_run)) ∧
  mkdir_parents built (out_dir script) = Some prepared.
Proof.
  assert (In (EvGenerateBindings (gb_kwargs script) [] prepared None)
            (trace (final working_run))) as Hin
    by (rewrite trace_working_run; member).
  destruct (in_process_generator_call script python_works built []
              _ _ _ _ Hin) as (_ & _ & H & _).
  split; [exact Hin|exact H].
Defined.

(** X9. When a regular file lies where the output directory (or one of the
    directories above it) should be, [mkdir] raises: the run ends with an
    [OSError] that nothing catches, after the banner, with no generation
    attempted and the file system as it was. *)
Theorem blocked_output_directory script w t d k :
  let p := run_script script w t d in
  path_exists t (lib_file script) = true →
  path_exists t (udl_file script) = true →
  lookup_path t (take k (out_dir script)) = Some File →
  exit_status p = 1%Z ∧ (∃ msg, traceback p = Some (OSError msg)) ∧
  stdout (final p) = banner_lines script ∧
  trace (final p) = [] ∧ fs (final p) = t.
Proof.
  intros p Hlib Hudl Hfile. subst p.
  pose proof (mkdir_parents_blocked _ _ _ Hfile) as Hmk.
  by_shape script w t d; try congruence.
  split_and!; try done. by eexists.
Qed.

Lemma blocked_output_directory_witness :
  lookup_path blocked (take 3 (out_dir script)) = Some File ∧
  exit_status blocked_run = 1%Z ∧ trace (final blocked_run) = [].
Proof.
  assert (path_exists blocked (lib_file script) = true) as Hlib
    by (vm_compute; reflexivity).
  assert (path_exists blocked (udl_file script) = true) as Hudl
    by (vm_compute; reflexivity).
  assert (lookup_path blocked (take 3 (out_dir script)) = Some File) as Hfile
    by (vm_compute; reflexivity).
  destruct (blocked_output_directory script python_works blocked [] 3
              Hlib Hudl Hfile) as (H1 & _ & _ & H4 & _).
  split_and!; [exact Hfile|exact H1|exact H4].
Defined.

(** X10. When only the interface definition is missing, the script prints
    the banner and the line about the interface definition, and exits with
    status 1; unlike for the library, no advice is printed. *)
Theorem udl_missing_prints_no_advice script w t d :
  let p := run_script script w t d in
  path_exists t (lib_file script) = true →
  path_exists t (udl_file script) = false →
  exit_status p = 1%Z ∧
  stdout (final p) = banner_lines script ++ [udl_missing_line script] ∧
  trace (final p) = [] ∧
  ∀ line, In line build_advice → ¬ In line (stdout (final p)).
Proof.
  intros p Hlib Hudl. subst p.
  by_shape script w t d; try congruence.
  split_and!; try done.
  unfold udl_missing_line.
  intros line [<-|[<-|[]]]; not_among.
Qed.

Lemma udl_missing_prints_no_advice_witness :
  path_exists no_interface (lib_file script) = true ∧
  path_exists no_interface (udl_file script) = false ∧
  exit_status no_interface_run = 1%Z.
Proof.
  assert (path_exists no_interface (lib_file script) = true) as Hlib
    by (vm_compute; reflexivity).
  assert (path_exists no_interface (udl_file script) = false) as Hudl
    by (vm_compute; reflexivity).
  destruct (udl_missing_prints_no_advice script python_works no_interface []
              Hlib Hudl) as (H1 & _).
  split_and!; [exact Hlib|exact Hudl|exact H1].
Defined.

Lemma kept_refl (t : node) (q : path) : kept t t q.
Proof. intros n H. by exists n. Qed.

Lemma kept_trans (t1 t2 t3 : node) (q : path) :
  kept t1 t2 q → kept t2 t3 q → kept t1 t3 q.
Proof.
  intros H12 H23 n H. destruct (H12 n H) as (n2 & H2 & K2).
  destruct (H23 n2 H2) as (n3 & H3 & K3). exists n3. split; congruence.
Qed.

Lemma kept_mkdir (t t' : node) (p q : path) :
  mkdir_parents t p = Some t' → kept t t' q.
Proof. intros Hmk n H. by apply (mkdir_parents_keeps p t t' q n). Qed.

Lemma kept_write (t : node) (d : path) (names : list string) (q : path) :
  ¬ d `prefix_of` q → kept t (write_files t d names) q.
Proof. intros Hp n H. by apply write_files_frame. Qed.

(** The script leaves everything outside the output directory in place. *)
Lemma run_keeps (script : path) (w : world) (t : node) (d q : path) :
  ¬ out_dir script `prefix_of` q →
  kept t (fs (final (run_script script w t d))) q.
Proof.
  intros Hq. by_shape script w t d.
  all: eauto 6 using kept_refl, kept_trans, kept_mkdir, kept_write.
Qed.

(** X11. Nothing outside the output directory is removed or replaced: a
    path that is neither the output directory nor below it is, after the
    run, still there and still a file or still a directory. *)
Theorem nothing_outside_output_changes script w t d q n :
  let p := run_script script w t d in
  lookup_path t q = Some n →
  ¬ out_dir script `prefix_of` q →
  ∃ n', lookup_path (fs (final p)) q = Some n' ∧ kind n' = kind n.
Proof. intros p Hn Hq. by apply (run_keeps script w t d q Hq). Qed.

Lemma nothing_outside_output_changes_witness :
  lookup_path built (core_dir script ++ ["src"]) =
    Some (Dir {[ "mepassa.udl" := File ]}) ∧
  ¬ out_dir script `prefix_of` (core_dir script ++ ["src"]) ∧
  is_dir (fs (final working_run)) (core_dir script ++ ["src"]) = true.
Proof.
  assert (lookup_path built (core_dir script ++ ["src"]) =
          Some (Dir {[ "mepassa.udl" := File ]})) as Hn
    by (vm_compute; reflexivity).
  assert (¬ out_dir script `prefix_of` (core_dir script ++ ["src"])) as Hq.
  { intros [k E]. vm_compute in E. discriminate E. }
  destruct (nothing_outside_output_changes script python_works built []
              _ _ Hn Hq) as (n' & Hn' & Hk).
  split_and!; [exact Hn|exact Hq|].
  unfold is_dir. change (run_script script python_works built [])
    with working_run in Hn'.
  rewrite Hn'. by destruct n'.
Defined.

(** X12. The script never deletes what it reads: the library and the
    interface definition are still there after the run, wherever the
    script lies. *)
Theorem inputs_survive script w t d :
  let p := run_script script w t d in
  path_exists t (lib_file script) = true →
  path_exists t (udl_file script) = true →
  path_exists (fs (final p)) (lib_file script) = true ∧
  path_exists (fs (final p)) (udl_file script) = true.
Proof.
  intros p. subst p. unfold path_exists. intros Hlib Hudl.
  destruct (lookup_path t (lib_file script)) as [n1|] eqn:E1; [|done].
  destruct (lookup_path t (udl_file script)) as [n2|] eqn:E2; [|done].
  destruct (run_keeps script w t d _ (lib_file_outside script) _ E1)
    as (? & -> & _).
  by destruct (run_keeps script w t d _ (udl_file_outside script) _ E2)
    as (? & -> & _).
Qed.

Lemma inputs_survive_witness :
  path_exists built (lib_file script) = true ∧
  path_exists built (udl_file script) = true ∧
  path_exists (fs (final failing_run)) (lib_file script) = true.
Proof.
  assert (path_exists built (lib_file script) = true) as Hlib
    by (vm_compute; reflexivity).
  assert (path_exists built (udl_file script) = true) as Hudl
    by (vm_compute; reflexivity).
  destruct (inputs_survive script cargo_fails built [] Hlib Hudl) as (H & _).
  split_and!; [exact Hlib|exact Hudl|exact H].
Defined.

(** X13. The script cleans nothing: a file that is in the output directory
    before the run is in it after the run. *)
Theorem stale_files_are_kept script w t d n :
  let p := run_script script w t d in
  In n (entry_names t (out_dir script)) →
  In n (entry_names (fs (final p)) (out_dir script)).
Proof.
  intros p. subst p. by_shape script w t d.
  all: intros Hin; try done.
  all: match goal with
       | H : mkdir_parents _ _ = Some _ |- _ =>
           rewrite <- (mkdir_parents_entries _ _ _ H) in Hin
       end.
  all: by repeat apply write_files_keeps_entries.
Qed.

Lemma stale_files_are_kept_witness :
  In "old.swift" (entry_names regenerated (out_dir script)) ∧
  In "old.swift" (entry_names (fs (final regenerated_run)) (out_dir script)).
Proof.
  assert (In "old.swift" (entry_names regenerated (out_dir script))) as Hin
    by (vm_compute; left; reflexivity).
  split; [exact Hin|].
  exact (stale_files_are_kept script python_works regenerated [] _ Hin).
Defined.

(** X14. After the in-process generator returned, the listing that the
    script prints has an entry for every file the generator wrote and for
    every file that was in the output directory before. *)
Theorem written_files_are_listed script w t d args wd seen n :
  let p := run_script script w t d in
  In (EvGenerateBindings args wd seen None) (trace (final p)) →
  In n (generate_bindings w args wd seen).2 ∨
  In n (entry_names t (out_dir script)) →
  In (listing_entry n) (stdout (final p)).
Proof.
  intros p. subst p. by_shape script w t d.
  all: intros Hin Hn.
  all: in_cases Hin ltac:(fun H => try discriminate H).
  simplify_eq.
  match goal with
  | H : generate_bindings _ _ _ _ = _ |- _ => rewrite H in Hn; simpl in Hn
  end.
  match goal with
  | H : mkdir_parents _ _ = Some _ |- _ =>
      pose proof (mkdir_parents_is_dir _ _ _ H) as Hd;
      rewrite <- (mkdir_parents_entries _ _ _ H) in Hn
  end.
  assert (In n (entry_names (write_files seen (out_dir script) written)
                  (out_dir script))) as Hentry.
  { destruct Hn as [Hn|Hn].
    - by apply write_files_adds_entries.
    - by apply write_files_keeps_entries. }
  destruct (listing_lines_spec script
              (write_files seen (out_dir script) written))
    as (names & -> & _ & Hp); [by apply write_files_keeps_out|].
  do 6 right. apply in_or_app. left. simpl. right.
  rewrite <- list_elem_of_In. apply list_elem_of_fmap. exists n.
  split; [done|]. rewrite list_elem_of_In.
  symmetry in Hp. by apply (Permutation_in _ Hp).
Qed.

Lemma written_files_are_listed_witness :
  In (EvGenerateBindings (gb_kwargs script) [] prepared None)
    (trace (final working_run)) ∧
  In (listing_entry "mepassa.swift") (stdout (final working_run)).
Proof.
  assert (In (EvGenerateBindings (gb_kwargs script) [] prepared None)
            (trace (final working_run))) as Hin
    by (rewrite trace_working_run; member).
  split; [exact Hin|].
  apply (written_files_are_listed script python_works built [] _ _ _
           "mepassa.swift" Hin).
  left. unfold python_works, swift_files. simpl. tauto.
Defined.

(** X15. A run that reaches no generator leaves an output directory that
    is already there, and with it the whole file system, as it was. *)
Theorem existing_output_directory_is_untouched script w t d :
  let p := run_script script w t d in
  is_dir t (out_dir script) = true →
  (∀ ev, In ev (trace (final p)) → generation_attempt ev = None) →
  fs (final p) = t.
Proof.
  intros p Hd. subst p.
  pose proof (mkdir_parents_exist_ok _ _ Hd) as Hmk.
  by_shape script w t d.
  all: intros Hnone; try done.
  all: try first [ attempt_at 1 refutes Hnone | attempt_at 2 refutes Hnone
                 | attempt_at 3 refutes Hnone | attempt_at 4 refutes Hnone ].
  all: congruence.
Qed.

Lemma existing_output_directory_is_untouched_witness :
  is_dir regenerated (out_dir script) = true ∧
  fs (final broken_run) = regenerated.
Proof.
  assert (is_dir regenerated (out_dir script) = true) as Hd
    by (vm_compute; reflexivity).
  assert (trace (final broken_run) =
          [ev_import (Some (OtherException "invalid syntax"))]) as Htr
    by (vm_compute; reflexivity).
  split; [exact Hd|].
  apply (existing_output_directory_is_untouched script broken_module
           regenerated [] Hd).
  intros ev Hin. change (In ev (trace (final broken_run))) in Hin.
  rewrite Htr in Hin. unfold In in Hin.
  in_cases Hin ltac:(fun H => subst ev; reflexivity).
Defined.

(** X16. When the library is missing the script stops there, whether the
    interface definition exists or not: the line about the library and the
    advice to build it are all it prints after the banner. *)
Theorem library_missing_stops_first script w t d :
  let p := run_script script w t d in
  path_exists t (lib_file script) = false →
  exit_status p = 1%Z ∧ traceback p = None ∧
  stdout (final p) =
    banner_lines script ++ lib_missing_line script :: build_advice ∧
  trace (final p) = [] ∧ fs (final p) = t ∧ cwd (final p) = d.
Proof.
  intros p Hlib. subst p.
  by_shape script w t d; try congruence.
  by split_and!.
Qed.

Lemma library_missing_stops_first_witness :
  path_exists unbuilt (lib_file script) = false ∧
  path_exists unbuilt (udl_file script) = true ∧
  exit_status unbuilt_run = 1%Z ∧
  stdout (final unbuilt_run) =
    banner_lines script ++ lib_missing_line script :: build_advice.
Proof.
  assert (path_exists unbuilt (lib_file script) = false) as Hlib
    by (vm_compute; reflexivity).
  destruct (library_missing_stops_first script python_works unbuilt [] Hlib)
    as (H1 & _ & H3 & _).
  split_and!; [exact Hlib|vm_compute; reflexivity|exact H1|exact H3].
Defined.

(** X17. Where the script looks: for a script [file] in a directory [dir]
    below [root], the core, the interface definition and the library are
    sought below [root], and the bindings go below [dir], next to the
    script. *)
Theorem paths_are_resolved_from_the_script (root : path) (dir file : string) :
  let script := root ++ [dir; file] in
  project_root script = root ∧
  core_dir script = root ++ ["core"] ∧
  udl_file script = root ++ ["core"; "src"; "mepassa.udl"] ∧
  lib_file script = root ++ ["target"; "release"; "libmepassa_core.dylib"] ∧
  out_dir script = root ++ [dir; "MePassa"; "Generated"].
Proof.
  intros script. subst script.
  unfold udl_file, lib_file, out_dir; unfold core_dir;
    unfold project_root, joinpath.
  destruct (parents_below root dir file) as [-> ->].
  by rewrite <- !app_assoc.
Qed.

End EveryRun.
